(** * infiniax-deno-proxy: the streaming translation layer of [main.ts]

    A shallow embedding of the request mapper, the event-stream parser, the
    stream re-encoder, the aggregator and the chat-completions dispatcher,
    and the properties of the specification proved (or refuted) on it.

    Conventions of the embedding.
    - Text is kept as a Rocq [string]: the decoded text of the program in its
      UTF-8 form.  Every string operation of the program ([split] on
      newlines, [startsWith "data: "], [slice(6)], concatenation) acts on
      ASCII delimiters, so it is the same on UTF-8 bytes and on UTF-16 code
      units.  A stream chunk is the text [new TextDecoder().decode(chunk)]
      gives for it.
    - A JavaScript value is a [JsValue]; an object is its list of properties
      in insertion order.
    - An exception is [None] in an [option]; every [catch] of the program
      catches everything, so the thrown value is not kept.
    - [JSON.stringify] is kept symbolic: produced text is a template, a list
      of literal pieces and of stringified values. *)

From Stdlib Require Import String Ascii List ZArith NArith Lia Bool.
From Stdlib Require Import DecimalString.
Import ListNotations.
Local Open Scope list_scope.
Local Open Scope string_scope.

(** ** Strings *)

Module Str.

(** [s.startsWith(p)] *)
Definition startsWith (s p : string) : bool := String.prefix p s.

(** [s.slice(n)], for [0 <= n] *)
Fixpoint slice_from (n : nat) (s : string) : string :=
  match n, s with
  | O, _ => s
  | S _, EmptyString => EmptyString
  | S k, String _ s' => slice_from k s'
  end.

(** [s.slice(0, n)] *)
Fixpoint slice_to (n : nat) (s : string) : string :=
  match n, s with
  | O, _ => EmptyString
  | S _, EmptyString => EmptyString
  | S k, String c s' => String c (slice_to k s')
  end.

(** [s.replace(/c/g, empty)] for a single character [c] *)
Fixpoint remove_char (c : ascii) (s : string) : string :=
  match s with
  | EmptyString => EmptyString
  | String d s' =>
      if Ascii.eqb c d then remove_char c s' else String d (remove_char c s')
  end.

(** What is left of [s] after the prefix [p], when [s] starts with [p]. *)
Fixpoint strip_prefix (p s : string) : option string :=
  match p, s with
  | EmptyString, _ => Some s
  | String _ _, EmptyString => None
  | String a p', String b s' =>
      if Ascii.eqb a b then strip_prefix p' s' else None
  end.

(** The text before and after the leftmost occurrence of [sep] in [s]. *)
Fixpoint cut (sep s : string) : option (string * string) :=
  match strip_prefix sep s with
  | Some rest => Some (EmptyString, rest)
  | None =>
      match s with
      | EmptyString => None
      | String c s' =>
          match cut sep s' with
          | Some (before, after) => Some (String c before, after)
          | None => None
          end
      end
  end.

Fixpoint split_fuel (fuel : nat) (sep s : string) : list string :=
  match fuel with
  | O => [s]
  | S fuel' =>
      match cut sep s with
      | Some (before, after) => before :: split_fuel fuel' sep after
      | None => [s]
      end
  end.

(** [s.split(sep)] for a non-empty separator [sep]: the pieces between the
    occurrences of [sep], found from left to right without overlap.  An
    occurrence takes at least one character away, so [length s] rounds are
    enough. *)
Definition split (s sep : string) : list string :=
  split_fuel (String.length s) sep s.

(** [a.join(sep)] with the empty separator *)
Definition concat (l : list string) : string := String.concat EmptyString l.

End Str.

(** The two characters of a blank line, and the one of a line end. *)
Definition LF : string := String (ascii_of_nat 10) EmptyString.
Definition LFLF : string := LF ++ LF.

(** ** JavaScript values *)

(** A value of the language, as far as the program meets one: what
    [JSON.parse] returns, what an object literal builds, and [undefined].
    A number is the double nearest to [m * 10^e]; the program only tests
    numbers for truth and turns them into text. *)
#[warnings="-register-all"]
Inductive JsValue : Type :=
| JUndefined
| JNull
| JBool (b : bool)
| JNumber (m e : Z)
| JString (s : string)
| JArray (xs : list JsValue)
| JObject (props : list (string * JsValue)).

Definition Props : Type := list (string * JsValue).

(** The own property [k] of an object. *)
Fixpoint lookup (k : string) (props : Props) : option JsValue :=
  match props with
  | [] => None
  | (k', v) :: rest => if String.eqb k k' then Some v else lookup k rest
  end.

(** [o[k] = v]: an existing property keeps its place, a new one goes last. *)
Fixpoint set_prop (k : string) (v : JsValue) (props : Props) : Props :=
  match props with
  | [] => [(k, v)]
  | (k', v') :: rest =>
      if String.eqb k k' then (k, v) :: rest else (k', v') :: set_prop k v rest
  end.

Definition keys (props : Props) : list string := map fst props.

(** [v.k], for a name [k] that no built-in prototype defines (the program
    reads [model], [messages], [stream], [web_search] and [chunk]): the own
    property of an object, [undefined] on any other value that has
    properties, a [TypeError] on [null] and [undefined]. *)
Definition get (v : JsValue) (k : string) : option JsValue :=
  match v with
  | JUndefined | JNull => None
  | JObject props =>
      Some (match lookup k props with Some x => x | None => JUndefined end)
  | JBool _ | JNumber _ _ | JString _ | JArray _ => Some JUndefined
  end.

(** The double nearest to [m * 10^e] is a zero: [m] is [0], or the value is
    at most half the least positive double, [2^-1075]. *)
Definition rounds_to_zero (m e : Z) : bool :=
  (m =? 0)%Z || ((e <? 0)%Z && (Z.abs m * 2 ^ 1075 <=? 10 ^ (- e))%Z).

(** [ToBoolean]: what [if (v)], [!v] and [v || w] test. *)
Definition ToBoolean (v : JsValue) : bool :=
  match v with
  | JUndefined | JNull => false
  | JBool b => b
  | JNumber m e => negb (rounds_to_zero m e)
  | JString s => negb (String.eqb s EmptyString)
  | JArray _ | JObject _ => true
  end.

(** [v === true] *)
Definition strict_eq_true (v : JsValue) : bool :=
  match v with
  | JBool true => true
  | _ => false
  end.

(** ** [JSON.parse] *)

Module JSON.

Definition is_ws (c : ascii) : bool :=
  match N_of_ascii c with
  | 32%N | 9%N | 10%N | 13%N => true
  | _ => false
  end.

Fixpoint skip_ws (s : string) : string :=
  match s with
  | String c r => if is_ws c then skip_ws r else s
  | EmptyString => s
  end.

Definition digit (c : ascii) : option Z :=
  let n := Z.of_N (N_of_ascii c) in
  if ((48 <=? n) && (n <=? 57))%Z then Some (n - 48)%Z else None.

Definition hex (c : ascii) : option N :=
  let n := N_of_ascii c in
  if ((48 <=? n) && (n <=? 57))%N then Some (n - 48)%N
  else if ((65 <=? n) && (n <=? 70))%N then Some (n - 55)%N
  else if ((97 <=? n) && (n <=? 102))%N then Some (n - 87)%N
  else None.

(** A run of digits: its value after [acc], how many there were, the rest. *)
Fixpoint digits (acc : Z) (count : Z) (s : string) : Z * Z * string :=
  match s with
  | String c r =>
      match digit c with
      | Some d => digits (10 * acc + d) (count + 1) r
      | None => (acc, count, s)
      end
  | EmptyString => (acc, count, s)
  end.

(** [0], or a digit that is not [0] and the digits after it. *)
Definition int_part (s : string) : option (Z * string) :=
  match s with
  | String c r =>
      match digit c with
      | Some 0%Z => Some (0%Z, r)
      | Some d => let '(m, _, r') := digits d 0 r in Some (m, r')
      | None => None
      end
  | EmptyString => None
  end.

(** [.] and at least one digit, carried into the mantissa [m]. *)
Definition frac_part (m : Z) (s : string) : option (Z * Z * string) :=
  match s with
  | String "."%char r =>
      let '(m', count, r') := digits m 0 r in
      if (count =? 0)%Z then None else Some (m', count, r')
  | _ => Some (m, 0%Z, s)
  end.

(** [e] or [E], a sign or none, and at least one digit. *)
Definition exp_part (s : string) : option (Z * string) :=
  let after_sign (neg : bool) (r : string) :=
    let '(x, count, r') := digits 0 0 r in
    if (count =? 0)%Z then None else Some (if neg then (- x)%Z else x, r') in
  let exponent (r : string) :=
    match r with
    | String "-"%char r' => after_sign true r'
    | String "+"%char r' => after_sign false r'
    | _ => after_sign false r
    end in
  match s with
  | String "e"%char r => exponent r
  | String "E"%char r => exponent r
  | _ => Some (0%Z, s)
  end.

Definition number (s : string) : option (JsValue * string) :=
  let '(neg, s1) :=
    match s with
    | String "-"%char r => (true, r)
    | _ => (false, s)
    end in
  match int_part s1 with
  | Some (i, s2) =>
      match frac_part i s2 with
      | Some (m, count, s3) =>
          match exp_part s3 with
          | Some (x, s4) =>
              Some (JNumber (if neg then - m else m) (x - count), s4)
          | None => None
          end
      | None => None
      end
  | None => None
  end.

(** What a string literal holds: a character of the text as it stands, or
    the code unit of a [\uXXXX] escape. *)
Inductive item : Type :=
| Raw (c : ascii)
| Esc (u : N).

Definition hex4 (a b c d : ascii) : option N :=
  match hex a, hex b, hex c, hex d with
  | Some x, Some y, Some z, Some w => Some (((x * 16 + y) * 16 + z) * 16 + w)%N
  | _, _, _, _ => None
  end.

(** The items of a string literal after its opening quote, up to the
    closing one.  A control character must be escaped. *)
Fixpoint string_items (s : string) : option (list item * string) :=
  let cons (i : item) (r : option (list item * string)) :=
    match r with
    | Some (l, rest) => Some (i :: l, rest)
    | None => None
    end in
  match s with
  | EmptyString => None
  | String c r =>
      match N_of_ascii c with
      | 34%N => Some ([], r)
      | 92%N =>
          match r with
          | String e r' =>
              match N_of_ascii e with
              | 34%N | 92%N | 47%N => cons (Raw e) (string_items r')
              | 98%N => cons (Raw (ascii_of_N 8)) (string_items r')
              | 102%N => cons (Raw (ascii_of_N 12)) (string_items r')
              | 110%N => cons (Raw (ascii_of_N 10)) (string_items r')
              | 114%N => cons (Raw (ascii_of_N 13)) (string_items r')
              | 116%N => cons (Raw (ascii_of_N 9)) (string_items r')
              | 117%N =>
                  match r' with
                  | String x1 (String x2 (String x3 (String x4 r''))) =>
                      match hex4 x1 x2 x3 x4 with
                      | Some u => cons (Esc u) (string_items r'')
                      | None => None
                      end
                  | _ => None
                  end
              | _ => None
              end
          | EmptyString => None
          end
      | n => if (n <? 32)%N then None else cons (Raw c) (string_items r)
      end
  end.

(** The UTF-8 form of a code point (of a lone surrogate too, as it stands). *)
Definition utf8 (cp : N) : string :=
  let byte (n : N) := ascii_of_N n in
  let cont (n : N) := byte (128 + n mod 64)%N in
  if (cp <? 128)%N then String (byte cp) EmptyString
  else if (cp <? 2048)%N then
    String (byte (192 + cp / 64)%N) (String (cont cp) EmptyString)
  else if (cp <? 65536)%N then
    String (byte (224 + cp / 4096)%N)
      (String (cont (cp / 64)%N) (String (cont cp) EmptyString))
  else
    String (byte (240 + cp / 262144)%N)
      (String (cont (cp / 4096)%N)
         (String (cont (cp / 64)%N) (String (cont cp) EmptyString))).

Definition is_high (u : N) : bool := ((55296 <=? u) && (u <=? 56319))%N.
Definition is_low (u : N) : bool := ((56320 <=? u) && (u <=? 57343))%N.

(** The text of a string literal: two escapes that are a surrogate pair are
    one code point. *)
Fixpoint encode (l : list item) : string :=
  match l with
  | [] => EmptyString
  | Raw c :: r => String c (encode r)
  | Esc hi :: r =>
      match r with
      | Esc lo :: r' =>
          if is_high hi && is_low lo
          then utf8 (65536 + (hi - 55296) * 1024 + (lo - 56320))%N ++ encode r'
          else utf8 hi ++ encode r
      | _ => utf8 hi ++ encode r
      end
  end.

Definition string_literal (s : string) : option (string * string) :=
  match string_items s with
  | Some (l, rest) => Some (encode l, rest)
  | None => None
  end.

(** A value, with white space before it; the elements of an array after its
    first bracket; the members of an object after its first brace.  A member
    named twice keeps its last value. *)
Fixpoint value (fuel : nat) (s : string) : option (JsValue * string) :=
  match fuel with
  | O => None
  | S f =>
      match skip_ws s with
      | EmptyString => None
      | String c r as t =>
          match N_of_ascii c with
          | 123%N =>
              match skip_ws r with
              | String "}"%char r' => Some (JObject [], r')
              | _ => members f [] r
              end
          | 91%N =>
              match skip_ws r with
              | String "]"%char r' => Some (JArray [], r')
              | _ => elements f [] r
              end
          | 34%N =>
              match string_literal r with
              | Some (str, r') => Some (JString str, r')
              | None => None
              end
          | _ =>
              match Str.strip_prefix "true" t, Str.strip_prefix "false" t,
                    Str.strip_prefix "null" t with
              | Some r', _, _ => Some (JBool true, r')
              | _, Some r', _ => Some (JBool false, r')
              | _, _, Some r' => Some (JNull, r')
              | None, None, None => number t
              end
          end
      end
  end
with elements (fuel : nat) (acc : list JsValue) (s : string)
  : option (JsValue * string) :=
  match fuel with
  | O => None
  | S f =>
      match value f s with
      | Some (v, r) =>
          match skip_ws r with
          | String ","%char r' => elements f (acc ++ [v])%list r'
          | String "]"%char r' => Some (JArray (acc ++ [v])%list, r')
          | _ => None
          end
      | None => None
      end
  end
with members (fuel : nat) (acc : Props) (s : string)
  : option (JsValue * string) :=
  match fuel with
  | O => None
  | S f =>
      match skip_ws s with
      | String (Ascii false true false false false true false false) r =>
          match string_literal r with
          | Some (k, r1) =>
              match skip_ws r1 with
              | String ":"%char r2 =>
                  match value f r2 with
                  | Some (v, r3) =>
                      match skip_ws r3 with
                      | String ","%char r4 => members f (set_prop k v acc) r4
                      | String "}"%char r4 =>
                          Some (JObject (set_prop k v acc), r4)
                      | _ => None
                      end
                  | None => None
                  end
              | _ => None
              end
          | None => None
          end
      | _ => None
      end
  end.

(** [JSON.parse(text)]: one value and nothing but white space after it;
    [None] is the [SyntaxError].  A value takes one round of [value] and one
    of [elements] or [members] for each character at most. *)
Definition parse (text : string) : option JsValue :=
  match value (2 * String.length text + 2) text with
  | Some (v, rest) =>
      match skip_ws rest with
      | EmptyString => Some v
      | String _ _ => None
      end
  | None => None
  end.

End JSON.

(** ** Produced text *)

(** A template literal whose holes are [JSON.stringify] of a value: the
    literal pieces and the stringified values, in order. *)
Inductive Piece : Type :=
| Lit (s : string)
| Stringify (v : JsValue).

Definition Text : Type := list Piece.

(** ** Exceptions *)

(** [x <- e ;; k]: go on with the value of [e], or throw what [e] throws. *)
Notation "x <- e ;; k" :=
  (match e with Some x => k | None => None end)
  (at level 61, e at next level, right associativity).

(** [try { body } catch { handler }] *)
Definition try_catch {A : Type} (body : option A) (handler : A) : A :=
  match body with
  | Some a => a
  | None => handler
  end.

(** [a.pop()]: the last element ([undefined] when there is none) and the
    array without it. *)
Definition Array_pop {A : Type} (a : list A) : option A * list A :=
  match rev a with
  | [] => (None, [])
  | x :: r => (Some x, rev r)
  end.

(** [s || t] on strings, [s] being [undefined] when absent. *)
Definition or_string (s : option string) (t : string) : string :=
  match s with
  | Some x => if ToBoolean (JString x) then x else t
  | None => t
  end.

(** ** Configuration and surroundings *)

Definition UPSTREAM_URL : string := "https://infiniax.ai/api/chat/stream".

(** What one call reads from outside the program: the cookie of the
    environment, the value [crypto.randomUUID()] returns and the one
    [Date.now()] returns. *)
Record Env : Type := {
  COOKIE : option string;
  randomUUID : string;
  now : Z
}.

(** The responses the program builds. *)
Inductive Body : Type :=
| TextBody (t : Text)
| StreamBody (enqueued : list Text).

Record Response : Type := {
  status : Z;
  headers : list (string * string);
  body : Body
}.

(** The request [fetch] is called with, and the response of the upstream:
    its status and its body, [None] when it has none, else the text of the
    chunks it delivers before it ends. *)
Record FetchRequest : Type := {
  url : string;
  method : string;
  req_headers : list (string * string);
  req_body : Text
}.

Record UpstreamResponse : Type := {
  up_status : Z;
  up_body : option (list string)
}.

(** [response.ok] *)
Definition ok (r : UpstreamResponse) : bool :=
  ((200 <=? up_status r) && (up_status r <=? 299))%Z.

(** [await response.text()]: the whole body, empty when there is none. *)
Definition text (r : UpstreamResponse) : string :=
  match up_body r with
  | Some chunks => Str.concat chunks
  | None => EmptyString
  end.

(** ** Request transformation *)

Definition transformRequest (openaiReq : JsValue) : option JsValue :=
  model <- get openaiReq "model" ;;
  messages <- get openaiReq "messages" ;;
  let result : Props := [("modelId", model); ("messages", messages)] in
  web_search <- get openaiReq "web_search" ;;
  Some (JObject (if ToBoolean web_search
                 then set_prop "webSearchEnabled" (JBool true) result
                 else result)).

(** ** Response transformation *)

Definition generateId (env : Env) : string :=
  "chatcmpl-" ++ Str.slice_to 24 (Str.remove_char "-"%char (randomUUID env)).

(** [Math.floor(Date.now() / 1000)] *)
Definition seconds (env : Env) : Z := (now env / 1000)%Z.

Definition transformStreamChunk
    (content model : JsValue) (responseId : string) (created : Z)
    (isFirst : bool) : Text :=
  let chunk :=
    JObject [
      ("id", JString responseId);
      ("object", JString "chat.completion.chunk");
      ("created", JNumber created 0);
      ("model", model);
      ("choices", JArray [
         JObject [
           ("index", JNumber 0 0);
           ("delta",
            if isFirst
            then JObject [("role", JString "assistant"); ("content", content)]
            else JObject [("content", content)]);
           ("finish_reason", JNull)]])] in
  [Lit "data: "; Stringify chunk; Lit LFLF].

Definition createStreamEndChunk
    (model : JsValue) (responseId : string) (created : Z) : Text :=
  let chunk :=
    JObject [
      ("id", JString responseId);
      ("object", JString "chat.completion.chunk");
      ("created", JNumber created 0);
      ("model", model);
      ("choices", JArray [
         JObject [
           ("index", JNumber 0 0);
           ("delta", JObject []);
           ("finish_reason", JString "stop")]])] in
  [Lit "data: "; Stringify chunk; Lit (LFLF ++ "data: [DONE]" ++ LFLF)].

Definition transformResponse (env : Env) (content : string) (model : JsValue)
  : JsValue :=
  JObject [
    ("id", JString (generateId env));
    ("object", JString "chat.completion");
    ("created", JNumber (seconds env) 0);
    ("model", model);
    ("choices", JArray [
       JObject [
         ("index", JNumber 0 0);
         ("message",
          JObject [("role", JString "assistant"); ("content", JString content)]);
         ("finish_reason", JString "stop")]])].

(** ** Error responses *)

Definition errorResponse (message : string) (status : Z) : Response :=
  {| status := status;
     headers := [("Content-Type", "application/json")];
     body := TextBody
               [Stringify (JObject [("error",
                                     JObject [("message", JString message)])])] |}.

Definition handleUpstreamError (status : Z) : Response :=
  if ((status =? 401) || (status =? 403))%Z
  then errorResponse "Authentication failed" 401
  else errorResponse "Upstream error" 502.

(** ** The streaming translation *)

(** The variables the two callbacks of the [TransformStream] share, and what
    they have given to [controller.enqueue] so far. *)
Record StreamState : Type := {
  isFirst : bool;
  buffer : string;
  enqueued : list Text
}.

Definition initial : StreamState :=
  {| isFirst := true; buffer := EmptyString; enqueued := [] |}.

(** The body of the loop of [transform], for one complete message.  Both a
    [SyntaxError] of [JSON.parse] and a [TypeError] of [data.chunk] end in
    the empty [catch]. *)
Definition transform_message
    (model : JsValue) (responseId : string) (created : Z)
    (st : StreamState) (msg : string) : StreamState :=
  if Str.startsWith msg "data: " then
    try_catch
      (data <- JSON.parse (Str.slice_from 6 msg) ;;
       chunk <- get data "chunk" ;;
       Some (if ToBoolean chunk then
               let sseChunk :=
                 transformStreamChunk chunk model responseId created
                   (isFirst st) in
               {| isFirst := false;
                  buffer := buffer st;
                  enqueued := (enqueued st ++ [sseChunk])%list |}
             else st))
      st
  else st.

(** [transform(chunk, controller)], [chunk] being the text of the chunk.
    Nothing throws outside the [try] of the loop, so the outer [catch] has
    nothing to catch. *)
Definition transform
    (model : JsValue) (responseId : string) (created : Z)
    (st : StreamState) (chunk : string) : StreamState :=
  let buffer1 := buffer st ++ chunk in
  let '(last, messages) := Array_pop (Str.split buffer1 LFLF) in
  let buffer2 := or_string last EmptyString in
  fold_left (transform_message model responseId created) messages
    {| isFirst := isFirst st; buffer := buffer2; enqueued := enqueued st |}.

(** [flush(controller)]: the rule of the loop on what is left in the
    buffer, but for [isFirst], which stays, and then the end. *)
Definition flush
    (model : JsValue) (responseId : string) (created : Z)
    (st : StreamState) : StreamState :=
  let st1 :=
    if Str.startsWith (buffer st) "data: " then
      try_catch
        (data <- JSON.parse (Str.slice_from 6 (buffer st)) ;;
         chunk <- get data "chunk" ;;
         Some (if ToBoolean chunk then
                 let sseChunk :=
                   transformStreamChunk chunk model responseId created
                     (isFirst st) in
                 {| isFirst := isFirst st;
                    buffer := buffer st;
                    enqueued := (enqueued st ++ [sseChunk])%list |}
               else st))
        st
    else st in
  let endChunk := createStreamEndChunk model responseId created in
  {| isFirst := isFirst st1;
     buffer := buffer st1;
     enqueued := (enqueued st1 ++ [endChunk])%list |}.

(** [body.pipeThrough(transformStream)]: [transform] on every chunk of the
    body as it arrives, [flush] when the body ends; the readable side is what
    was enqueued, in order. *)
Definition pipeThrough
    (model : JsValue) (responseId : string) (created : Z)
    (chunks : list string) : list Text :=
  enqueued
    (flush model responseId created
       (fold_left (transform model responseId created) chunks initial)).

Definition handleStreamingResponse
    (env : Env) (upstreamResponse : UpstreamResponse) (model : JsValue)
  : Response :=
  let responseId := generateId env in
  let created := seconds env in
  match up_body upstreamResponse with
  | None => errorResponse "No response body from upstream" 502
  | Some chunks =>
      {| status := 200;
         headers := [("Content-Type", "text/event-stream");
                     ("Cache-Control", "no-cache");
                     ("Connection", "keep-alive")];
         body := StreamBody (pipeThrough model responseId created chunks) |}
  end.

(** How the body of the upstream ends: it closes, or it errors, as when the
    connection to the upstream breaks. *)
Inductive Ending : Type :=
| Closes
| Errors.

(** [body.pipeThrough(transformStream)] on a body that delivers [chunks]
    and then ends in [ending].  The pipe writes every chunk it has read, so
    [transform] runs on each; when the body closes it closes the writable
    side, which runs [flush]; when the body errors it aborts the writable
    side, [flush] is not run, and the readable side errors.  The result is
    what was enqueued and how the readable side ends; of an errored stream
    the caller reads these frames as far as it had come, and then the
    error.  [pipeThrough] is the stream of a body that closes. *)
Definition pipeThroughUntil
    (model : JsValue) (responseId : string) (created : Z)
    (chunks : list string) (ending : Ending) : list Text * Ending :=
  let st := fold_left (transform model responseId created) chunks initial in
  match ending with
  | Closes => (enqueued (flush model responseId created st), Closes)
  | Errors => (enqueued st, Errors)
  end.

(** The stream of the response [handleStreamingResponse] builds for an
    upstream body that delivers [chunks] and ends in [ending]. *)
Definition caller_stream
    (env : Env) (chunks : list string) (ending : Ending) (model : JsValue)
  : list Text * Ending :=
  pipeThroughUntil model (generateId env) (seconds env) chunks ending.

(** ** The aggregating translation and the dispatcher *)

(** An instance of [Number::toString], right on the integers below [2^53]
    written without fraction; the closed examples are stated with it. *)
Definition integer_toString (m e : Z) : string :=
  NilZero.string_of_int (Z.to_int (m * 10 ^ e)).

Section Proxy.

(** [Number::toString], the text of the double nearest to [m * 10^e]: a
    function of the language the development does not look into. *)
Variable Number_toString : Z -> Z -> string.

(** The text [content + v] appends for [v]: [ToString] of [ToPrimitive] of
    [v].  An array is its elements joined by commas, [null] and [undefined]
    among them being empty; an object is [[object Object]], and a
    [TypeError] when it has a property [toString] of its own, which
    [JSON.parse] never makes callable. *)
Fixpoint ToString (v : JsValue) : option string :=
  match v with
  | JUndefined => Some "undefined"
  | JNull => Some "null"
  | JBool b => Some (if b then "true" else "false")
  | JNumber m e => Some (Number_toString m e)
  | JString s => Some s
  | JArray xs =>
      let element (x : JsValue) :=
        match x with
        | JUndefined | JNull => Some EmptyString
        | _ => ToString x
        end in
      (fix join (l : list JsValue) : option string :=
         match l with
         | [] => Some EmptyString
         | [x] => element x
         | x :: rest =>
             s <- element x ;; t <- join rest ;; Some (s ++ "," ++ t)
         end) xs
  | JObject props =>
      match lookup "toString" props with
      | Some _ => None
      | None => Some "[object Object]"
      end
  end.

(** The body of the loop of [parseInfiniaxSSE], for one line. *)
Definition parse_line (content : string) (line : string) : string :=
  if Str.startsWith line "data: " then
    try_catch
      (data <- JSON.parse (Str.slice_from 6 line) ;;
       chunk <- get data "chunk" ;;
       if ToBoolean chunk
       then (s <- ToString chunk ;; Some (content ++ s))
       else Some content)
      content
  else content.

Definition parseInfiniaxSSE (sseText : string) : string :=
  let lines := Str.split sseText LF in
  fold_left parse_line lines EmptyString.

(** Nothing in the [try] block throws on a body that ends, so its [catch]
    has nothing to catch. *)
Definition handleNonStreamingResponse
    (env : Env) (upstreamResponse : UpstreamResponse) (model : JsValue)
  : Response :=
  let rawContent := text upstreamResponse in
  let content := parseInfiniaxSSE rawContent in
  let openaiResponse := transformResponse env content model in
  {| status := 200;
     headers := [("Content-Type", "application/json")];
     body := TextBody [Stringify openaiResponse] |}.

(** [handleChatCompletions], on the text of the request body.  [fetch] is
    the upstream: the response it gives to a request, or [None] when the
    call throws. *)
Definition handleChatCompletions
    (env : Env) (fetch : FetchRequest -> option UpstreamResponse)
    (requestBody : string) : Response :=
  try_catch
    (match JSON.parse requestBody with
     | None => Some (errorResponse "Invalid JSON" 400)
     | Some openaiReq =>
         model <- get openaiReq "model" ;;
         if negb (ToBoolean model) then
           Some (errorResponse "Missing required fields: model and messages" 400)
         else
         messages <- get openaiReq "messages" ;;
         if negb (ToBoolean messages) then
           Some (errorResponse "Missing required fields: model and messages" 400)
         else
         infiniaxReq <- transformRequest openaiReq ;;
         stream <- get openaiReq "stream" ;;
         let isStreaming := strict_eq_true stream in
         match fetch {| url := UPSTREAM_URL;
                        method := "POST";
                        req_headers :=
                          [("Content-Type", "application/json");
                           ("Cookie", or_string (COOKIE env) EmptyString)];
                        req_body := [Stringify infiniaxReq] |} with
         | None => Some (errorResponse "Upstream error" 502)
         | Some upstreamResponse =>
             if negb (ok upstreamResponse) then
               Some (handleUpstreamError (up_status upstreamResponse))
             else if isStreaming then
               Some (handleStreamingResponse env upstreamResponse model)
             else
               Some (handleNonStreamingResponse env upstreamResponse model)
         end
     end)
    (errorResponse "Internal server error" 500).

End Proxy.

(** ** The model list and the router *)

(** [s.toLowerCase()] and [s.replace(/\s+/g, "-")] on ASCII text, which the
    providers of the list are: the letters [A] to [Z] become [a] to [z], and
    every longest run of blanks (tab, line feed, vertical tab, form feed,
    carriage return, space) becomes one dash. *)
Definition is_upper (c : ascii) : bool :=
  ((65 <=? N_of_ascii c) && (N_of_ascii c <=? 90))%N.

Definition is_space (c : ascii) : bool :=
  (((9 <=? N_of_ascii c) && (N_of_ascii c <=? 13)) || (N_of_ascii c =? 32))%N.

Definition lower (c : ascii) : ascii :=
  if is_upper c then ascii_of_N (N_of_ascii c + 32) else c.

Fixpoint toLowerCase (s : string) : string :=
  match s with
  | EmptyString => EmptyString
  | String c r => String (lower c) (toLowerCase r)
  end.

Fixpoint dash_blanks (in_run : bool) (s : string) : string :=
  match s with
  | EmptyString => EmptyString
  | String c r =>
      if is_space c then
        if in_run then dash_blanks true r
        else String "-"%char (dash_blanks true r)
      else String c (dash_blanks false r)
  end.

(** [provider.toLowerCase().replace(/\s+/g, "-")] *)
Definition owned_by (provider : string) : string :=
  dash_blanks false (toLowerCase provider).

Module Models.

Record Info : Type := info {
  id : string;
  name : string;
  provider : string;
  description : string
}.

Definition INFINIAX_MODELS : list Info :=
  [
    info "meta-llama/llama-3.3-70b-instruct:free" "Llama 3.3 70B"
      "Meta" "FREE - High quality open-source";
    info "amazon/nova-2-lite-v1:free" "Nova 2 Lite"
      "Amazon" "FREE - Fast and efficient";
    info "arcee-ai/trinity-mini:free" "Trinity Mini"
      "Arcee AI" "FREE - Compact reasoning model";
    info "deepseek/deepseek-v3.2-exp" "DeepSeek 3.2 Exp"
      "DeepSeek" "FREE - Next-gen experimental";
    info "mistralai/ministral-14b-2512" "Mistral 14B"
      "Mistral AI" "FREE - Fast European AI";
    info "z-ai/glm-4.6v" "GLM 4.6v"
      "Z.ai" "FREE - Advanced reasoning";
    info "anthropic/claude-opus-4.5" "Claude Opus 4.5"
      "Anthropic" "PREMIUM - Advanced Coding & Writing";
    info "google/gemini-3-pro-preview" "Gemini 3 Pro"
      "Google" "PREMIUM - Peak Intelligence";
    info "openai/gpt-5-pro" "GPT-5 Pro"
      "OpenAI" "PREMIUM - Most Expensive, Best output";
    info "openai/gpt-5.1" "GPT-5.1"
      "OpenAI" "FREE - Enhanced GPT-5 model";
    info "openai/gpt-5.1-chat" "GPT-5.1 Chat"
      "OpenAI" "FREE - Optimized for conversations";
    info "openai/gpt-5.1-codex-max" "GPT-5.1 Codex Max"
      "OpenAI" "FREE - Advanced reasoning for large tasks";
    info "openai/gpt-5" "GPT-5"
      "OpenAI" "FREE - Next-generation flagship model";
    info "openai/gpt-5-mini" "GPT-5 Mini"
      "OpenAI" "FREE - Fast and efficient GPT-5";
    info "openai/gpt-5-nano" "GPT-5 Nano"
      "OpenAI" "FREE - Ultra-lightweight GPT-5";
    info "openai/gpt-4o" "GPT-4o"
      "OpenAI" "FREE - Multimodal GPT-4 optimized";
    info "openai/gpt-4-turbo" "GPT-4 Turbo"
      "OpenAI" "FREE - Previous generation flagship";
    info "openai/gpt-3.5-turbo" "GPT-3.5 Turbo"
      "OpenAI" "FREE - Fast and economical";
    info "anthropic/claude-opus-4.1" "Claude Opus 4.1"
      "Anthropic" "FREE - Most capable Claude model";
    info "anthropic/claude-sonnet-4" "Claude Sonnet 4"
      "Anthropic" "FREE - Balanced performance and speed";
    info "anthropic/claude-haiku-4.5" "Claude Haiku 4.5"
      "Anthropic" "FREE - Lightning-fast responses";
    info "anthropic/claude-sonnet-4.5" "Claude Sonnet 4.5"
      "Anthropic" "FREE - Advanced reasoning and coding";
    info "anthropic/claude-3.7-sonnet" "Claude 3.7 Sonnet"
      "Anthropic" "FREE - Enhanced Claude 3 generation";
    info "anthropic/claude-3.5-haiku" "Claude 3.5 Haiku"
      "Anthropic" "FREE - Fast and efficient Claude";
    info "anthropic/claude-3-opus" "Claude 3 Opus"
      "Anthropic" "FREE - Most capable Claude model";
    info "google/gemini-2.5-pro" "Gemini 2.5 Pro"
      "Google" "FREE - Advanced multimodal";
    info "google/gemini-2.5-flash" "Gemini 2.5 Flash"
      "Google" "FREE - Fast multimodal AI";
    info "google/gemini-flash-1.5" "Gemini 1.5 Flash"
      "Google" "FREE - Efficient multimodal model";
    info "x-ai/grok-4" "Grok 4"
      "X.AI" "FREE - Most capable Grok model";
    info "x-ai/grok-4-fast" "Grok 4 Fast"
      "X.AI" "FREE - Lightning-fast Grok";
    info "x-ai/grok-4.1-fast" "Grok 4.1 Fast"
      "X.AI" "FREE - Lightning-fast Grok";
    info "x-ai/grok-4.1-fast:reasoning" "Grok 4.1 Fast Reasoning"
      "X.AI" "FREE - Enhanced reasoning mode";
    info "x-ai/grok-code-fast-1" "Grok Code Fast"
      "X.AI" "FREE - Specialized for coding";
    info "meta-llama/llama-4-scout" "Llama 4 Scout"
      "Meta" "FREE - Fast and efficient Llama 4";
    info "meta-llama/llama-4-maverick" "Llama 4 Maverick"
      "Meta" "FREE - Advanced Llama 4 model";
    info "deepseek/deepseek-v3.1-terminus" "DeepSeek 3.1 Terminus"
      "DeepSeek" "FREE - Advanced reasoning model";
    info "deepseek/deepseek-chat" "DeepSeek Chat"
      "DeepSeek" "FREE - Efficient reasoning";
    info "qwen/qwen3-max" "Qwen 3 Max"
      "Qwen" "FREE - Top-tier reasoning model";
    info "qwen/qwen3-coder-plus" "Qwen 3 Coder Plus"
      "Qwen" "FREE - Advanced coding model";
    info "qwen/qwen3-coder-flash" "Qwen 3 Coder Flash"
      "Qwen" "FREE - Fast coding assistant";
    info "qwen/qwen-2.5-72b-instruct" "Qwen 2.5 72B"
      "Qwen" "FREE - Multilingual excellence";
    info "qwen/qwen-turbo" "Qwen Turbo"
      "Qwen" "FREE - Ultra-fast responses";
    info "mistralai/mistral-large" "Mistral Large"
      "Mistral AI" "FREE - European flagship model";
    info "mistralai/mistral-medium-3.1" "Mistral Medium"
      "Mistral AI" "FREE - Balanced capabilities";
    info "minimax/minimax-m2" "Minimax M2"
      "Minimax" "FREE - Advanced reasoning model";
    info "moonshotai/kimi-k2-thinking" "Moonshot Kimi K2"
      "Moonshot" "FREE - Deep thinking capabilities";
    info "microsoft/phi-3-medium-128k-instruct" "Phi-3 Medium"
      "Microsoft" "FREE - Compact and capable";
    info "cohere/command-r-plus-08-2024" "Command R+"
      "Cohere" "FREE - Enterprise-grade RAG";
    info "z-ai/glm-4.6" "GLM 4.6"
      "Z.ai" "FREE - Advanced reasoning model";
    info "z-ai/glm-4.6:exacto" "GLM 4.6 Exacto"
      "Z.ai" "FREE - Optimized precision model"
  ].

End Models.

(** One entry of the answer of [handleModels]. *)
Definition model_entry (created : Z) (m : Models.Info) : JsValue :=
  JObject [
    ("id", JString (Models.id m));
    ("object", JString "model");
    ("created", JNumber created 0);
    ("owned_by", JString (owned_by (Models.provider m)))].

Definition handleModels (env : Env) : Response :=
  let created := seconds env in
  let models :=
    JObject [
      ("object", JString "list");
      ("data", JArray (map (model_entry created) Models.INFINIAX_MODELS))] in
  {| status := 200;
     headers := [("Content-Type", "application/json")];
     body := TextBody [Stringify models] |}.

(** A request as [handler] reads it: the [pathname] of its URL, its method,
    and the text of its body. *)
Record Incoming : Type := {
  path : string;
  http_method : string;
  payload : string
}.

(** [handler].  Reading the URL of a request the server hands over does not
    throw, and the handlers catch what they throw themselves, so the [catch]
    of the router has nothing to catch. *)
Definition handler
    (Number_toString : Z -> Z -> string) (env : Env)
    (fetch : FetchRequest -> option UpstreamResponse) (req : Incoming)
  : Response :=
  if String.eqb (path req) "/" && String.eqb (http_method req) "GET" then
    {| status := 200;
       headers := [("Content-Type", "application/json")];
       body := TextBody
                 [Stringify (JObject [("status", JString "ok");
                                      ("service", JString "infiniax-deno-proxy");
                                      ("version", JString "1.0.0")])] |}
  else if String.eqb (path req) "/v1/chat/completions"
          && String.eqb (http_method req) "POST" then
    handleChatCompletions Number_toString env fetch (payload req)
  else if String.eqb (path req) "/v1/models"
          && String.eqb (http_method req) "GET" then
    handleModels env
  else errorResponse "Not Found" 404.

(** The request the dispatcher sends to the upstream for a mapped request. *)
Definition upstream_request (env : Env) (infiniaxReq : JsValue) : FetchRequest :=
  {| url := UPSTREAM_URL;
     method := "POST";
     req_headers :=
       [("Content-Type", "application/json");
        ("Cookie", or_string (COOKIE env) EmptyString)];
     req_body := [Stringify infiniaxReq] |}.

(** What the dispatcher makes of the answer of the upstream. *)
Definition reply
    (Number_toString : Z -> Z -> string) (env : Env)
    (model stream : JsValue) (answer : option UpstreamResponse) : Response :=
  match answer with
  | None => errorResponse "Upstream error" 502
  | Some upstreamResponse =>
      if negb (ok upstreamResponse) then
        handleUpstreamError (up_status upstreamResponse)
      else if strict_eq_true stream then
        handleStreamingResponse env upstreamResponse model
      else
        handleNonStreamingResponse Number_toString env upstreamResponse model
  end.

(** The names and values of the entries of a model list. *)
Definition entry_field (k : string) (entry : JsValue) : option JsValue :=
  match entry with
  | JObject props => lookup k props
  | _ => None
  end.

(** The [data] of the answer of [handleModels]. *)
Definition listed (r : Response) : list JsValue :=
  match body r with
  | TextBody [Stringify (JObject props)] =>
      match lookup "data" props with
      | Some (JArray entries) => entries
      | _ => []
      end
  | _ => []
  end.

(** No character of a text is a blank, or an upper-case letter. *)
Fixpoint all_chars (p : ascii -> bool) (s : string) : bool :=
  match s with
  | EmptyString => true
  | String c r => p c && all_chars p r
  end.

Definition is_ascii (c : ascii) : bool := (N_of_ascii c <? 128)%N.

(** A character that is neither a blank nor an upper-case letter. *)
Definition clean (c : ascii) : bool := negb (is_space c) && negb (is_upper c).

(** ** Vocabulary of the properties *)

(** The fragment a payload carries: its [chunk], when it has one that is
    not empty. *)
Definition fragment_of (data : JsValue) : option JsValue :=
  match get data "chunk" with
  | Some chunk => if ToBoolean chunk then Some chunk else None
  | None => None
  end.

Fixpoint fragments (datas : list JsValue) : list JsValue :=
  match datas with
  | [] => []
  | data :: rest =>
      match fragment_of data with
      | Some f => f :: fragments rest
      | None => fragments rest
      end
  end.

(** The fragment the program takes from one piece of the split text. *)
Definition carried (piece : string) : option JsValue :=
  if Str.startsWith piece "data: " then
    match JSON.parse (Str.slice_from 6 piece) with
    | Some data => fragment_of data
    | None => None
    end
  else None.

Fixpoint carried_all (pieces : list string) : list JsValue :=
  match pieces with
  | [] => []
  | piece :: rest =>
      match carried piece with
      | Some f => f :: carried_all rest
      | None => carried_all rest
      end
  end.

(** A record of the upstream: the prefix and a payload. *)
Definition record (payload : string) : string := "data: " ++ payload.

(** A piece of text that can stand before a blank line: it holds none and
    does not end in a line end, so that the first blank line of the piece
    and a blank line is the one after the piece. *)
Definition unbroken (r : string) : Prop := Str.cut LFLF (r ++ LF) = None.

(** A piece of text that is one line. *)
Definition one_line (r : string) : Prop := Str.cut LF r = None.

(** Records with a blank line between them, and after the last one when
    [terminated]. *)
Fixpoint sse_text (records : list string) (terminated : bool) : string :=
  match records with
  | [] => EmptyString
  | [r] => if terminated then r ++ LFLF else r
  | r :: rest => r ++ LFLF ++ sse_text rest terminated
  end.

(** The frames of a sequence of fragments: the first one built with
    [isFirst], the others without. *)
Definition content_frames
    (model : JsValue) (responseId : string) (created : Z)
    (first : bool) (fs : list JsValue) : list Text :=
  match fs with
  | [] => []
  | f :: rest =>
      transformStreamChunk f model responseId created first
      :: map (fun g => transformStreamChunk g model responseId created false)
           rest
  end.

(** The state of a stream after it has given the fragments [fs] to the
    controller. *)
Definition after
    (model : JsValue) (responseId : string) (created : Z)
    (st : StreamState) (fs : list JsValue) : StreamState :=
  {| isFirst := match fs with [] => isFirst st | _ :: _ => false end;
     buffer := buffer st;
     enqueued :=
       (enqueued st
        ++ content_frames model responseId created (isFirst st) fs)%list |}.

Definition with_buffer (st : StreamState) (b : string) : StreamState :=
  {| isFirst := isFirst st; buffer := b; enqueued := enqueued st |}.

Definition option_list {A : Type} (o : option A) : list A :=
  match o with
  | Some a => [a]
  | None => []
  end.

(** The object a frame stringifies, and what it holds. *)
Definition frame_object (t : Text) : option JsValue :=
  match t with
  | Lit _ :: Stringify o :: _ => Some o
  | _ => None
  end.

Definition frame_choice (t : Text) : option JsValue :=
  o <- frame_object t ;;
  choices <- get o "choices" ;;
  match choices with
  | JArray (c :: _) => Some c
  | _ => None
  end.

Definition frame_delta (t : Text) : option JsValue :=
  c <- frame_choice t ;; get c "delta".

Definition frame_finish_reason (t : Text) : option JsValue :=
  c <- frame_choice t ;; get c "finish_reason".

Definition frame_id (t : Text) : option JsValue :=
  o <- frame_object t ;; get o "id".

Definition frame_created (t : Text) : option JsValue :=
  o <- frame_object t ;; get o "created".

(** The fragment of a frame: the [content] of its delta, when it has one. *)
Definition frame_fragment (t : Text) : option JsValue :=
  d <- frame_delta t ;;
  match get d "content" with
  | Some JUndefined => None
  | other => other
  end.

Fixpoint emitted_fragments (frames : list Text) : list JsValue :=
  match frames with
  | [] => []
  | t :: rest =>
      match frame_fragment t with
      | Some f => f :: emitted_fragments rest
      | None => emitted_fragments rest
      end
  end.

(** The last literal piece of a frame. *)
Definition frame_tail (t : Text) : option string :=
  match t with
  | [Lit _; Stringify _; Lit s] => Some s
  | _ => None
  end.

(** The content of the response the aggregating path builds. *)
Definition response_content (r : Response) : option JsValue :=
  match body r with
  | TextBody [Stringify o] =>
      choices <- get o "choices" ;;
      match choices with
      | JArray (c :: _) => m <- get c "message" ;; get m "content"
      | _ => None
      end
  | _ => None
  end.

(** The message of an error response. *)
Definition error_message (r : Response) : option JsValue :=
  match body r with
  | TextBody [Stringify o] => e <- get o "error" ;; get e "message"
  | _ => None
  end.

(** A header of a response. *)
Fixpoint header (name : string) (hs : list (string * string)) : option string :=
  match hs with
  | [] => None
  | (n, v) :: rest => if String.eqb name n then Some v else header name rest
  end.

(** The deltas of the frames of a sequence of fragments, as the
    specification has them. *)
Definition first_delta (f : JsValue) : JsValue :=
  JObject [("role", JString "assistant"); ("content", f)].

Definition later_delta (f : JsValue) : JsValue :=
  JObject [("content", f)].

Definition deltas (fs : list JsValue) : list (option JsValue) :=
  match fs with
  | [] => []
  | f :: rest => Some (first_delta f) :: map (fun g => Some (later_delta g)) rest
  end.

(** The names of the properties of an object. *)
Definition own_keys (v : JsValue) : list string :=
  match v with
  | JObject props => keys props
  | _ => []
  end.

(** A request body the dispatcher sends on: it parses, and its [model] and
    [messages] are there and not empty. *)
Definition validated (requestBody : string) (openaiReq model : JsValue) : Prop :=
  JSON.parse requestBody = Some openaiReq /\
  get openaiReq "model" = Some model /\ ToBoolean model = true /\
  exists messages,
    get openaiReq "messages" = Some messages /\ ToBoolean messages = true.

(** The text a fragment adds to the aggregated content: nothing when
    turning it into text throws. *)
Definition fragment_text (Number_toString : Z -> Z -> string) (f : JsValue)
  : string :=
  match ToString Number_toString f with
  | Some s => s
  | None => EmptyString
  end.

(** ** Inputs of the examples *)

Definition Q : string := String (ascii_of_nat 34) EmptyString.

Definition quoted (s : string) : string := Q ++ s ++ Q.

(** The payload [{"chunk":"f"}], and the payload [{"done":true}]. *)
Definition chunk_payload (f : string) : string :=
  "{" ++ quoted "chunk" ++ ":" ++ quoted f ++ "}".

Definition done_payload : string := "{" ++ quoted "done" ++ ":true}".

Definition example_env : Env :=
  {| COOKIE := Some "connect.sid=s%3Aabc";
     randomUUID := "123e4567-e89b-12d3-a456-426614174000";
     now := 1700000000123 |}.

(** The request body
    [{"model":"m","messages":[{"role":"user","content":"hi"}]<more>}]. *)
Definition example_request (more : string) : string :=
  "{" ++ quoted "model" ++ ":" ++ quoted "m" ++ ","
  ++ quoted "messages" ++ ":[{" ++ quoted "role" ++ ":" ++ quoted "user" ++ ","
  ++ quoted "content" ++ ":" ++ quoted "hi" ++ "}]" ++ more ++ "}".

(** [,"stream":<value>] *)
Definition stream_field (value : string) : string :=
  "," ++ quoted "stream" ++ ":" ++ value.

Definition example_messages : JsValue :=
  JArray [JObject [("role", JString "user"); ("content", JString "hi")]].

(** The records [data: {"chunk":"Hel"}], [data: {"done":true}] and
    [data: {"chunk":"lo"}], each with a blank line after it, in four chunks:
    cut in the middle of a record, in the middle of a separator, and after
    a prefix. *)
Definition example_chunks : list string :=
  [ "data: {" ++ quoted "chunk";
    ":" ++ quoted "Hel" ++ "}" ++ LF;
    LF ++ record done_payload ++ LFLF ++ "data: ";
    chunk_payload "lo" ++ LFLF ].

(** The records [data: {"chunk":"a"}] and [data: {"chunk":"b"}] with one
    line end between them, and no blank line. *)
Definition example_lines : string :=
  record (chunk_payload "a") ++ LF ++ record (chunk_payload "b").

(** What the request mapper makes of a request for the model [m] with the
    messages of the examples and no search flag. *)
Definition example_mapped : JsValue :=
  JObject [("modelId", JString "m"); ("messages", example_messages)].

(** An upstream that answers every request with the same response. *)
Definition answering (r : UpstreamResponse) : FetchRequest -> option UpstreamResponse :=
  fun _ => Some r.

(** An upstream that cannot be reached. *)
Definition unreachable : FetchRequest -> option UpstreamResponse :=
  fun _ => None.

(** ** Strings: splitting *)

Lemma append_assoc (a b c : string) : (a ++ b) ++ c = a ++ b ++ c.
Proof.
  induction a as [|x a IH]; simpl; [reflexivity | now rewrite IH].
Qed.

Lemma append_empty_r (a : string) : a ++ EmptyString = a.
Proof.
  induction a as [|x a IH]; simpl; [reflexivity | now rewrite IH].
Qed.

Lemma length_append (a b : string) :
  String.length (a ++ b) = String.length a + String.length b.
Proof.
  induction a as [|x a IH]; simpl; [reflexivity | now rewrite IH].
Qed.

Lemma strip_prefix_spec (p s rest : string) :
  Str.strip_prefix p s = Some rest -> s = p ++ rest.
Proof.
  revert s; induction p as [|a p IH]; intros s H; simpl in *.
  - now inversion H.
  - destruct s as [|b s]; [discriminate|].
    destruct (Ascii.eqb_spec a b) as [->|]; [|discriminate].
    now rewrite (IH _ H).
Qed.

Lemma strip_prefix_app (p s rest t : string) :
  Str.strip_prefix p s = Some rest ->
  Str.strip_prefix p (s ++ t) = Some (rest ++ t).
Proof.
  revert s; induction p as [|a p IH]; intros s H; simpl in *.
  - now inversion H.
  - destruct s as [|b s]; [discriminate|]; simpl.
    destruct (Ascii.eqb a b); [now apply IH | discriminate].
Qed.

Lemma strip_prefix_none_app (p s t : string) :
  Str.strip_prefix p s = None ->
  String.length p <= String.length s ->
  Str.strip_prefix p (s ++ t) = None.
Proof.
  revert s; induction p as [|a p IH]; intros s H L; simpl in *.
  - discriminate.
  - destruct s as [|b s]; simpl in *; [lia|].
    destruct (Ascii.eqb a b); [apply IH; [assumption | lia] | reflexivity].
Qed.

Lemma cut_spec (sep s before after : string) :
  Str.cut sep s = Some (before, after) -> s = before ++ sep ++ after.
Proof.
  revert before after; induction s as [|c s IH]; intros before after H.
  - simpl in H. destruct (Str.strip_prefix sep EmptyString) eqn:E.
    + inversion H; subst. now apply strip_prefix_spec in E.
    + discriminate.
  - simpl in H. destruct (Str.strip_prefix sep (String c s)) eqn:E.
    + inversion H; subst. now apply strip_prefix_spec in E.
    + destruct (Str.cut sep s) as [[b a]|] eqn:C; [|discriminate].
      inversion H; subst. simpl. now rewrite (IH _ _ eq_refl).
Qed.

Lemma cut_length (sep s before after : string) :
  Str.cut sep s = Some (before, after) ->
  String.length s = String.length before + String.length sep + String.length after.
Proof.
  intros H. apply cut_spec in H. subst.
  rewrite !length_append. lia.
Qed.

(** The leftmost occurrence in a text is the leftmost one in any text that
    goes on after it. *)
Lemma cut_app (sep s before after t : string) :
  Str.cut sep s = Some (before, after) ->
  Str.cut sep (s ++ t) = Some (before, after ++ t).
Proof.
  revert before after; induction s as [|c s IH]; intros before after H.
  - simpl in H. destruct (Str.strip_prefix sep EmptyString) eqn:E; [|discriminate].
    inversion H; subst.
    destruct sep; simpl in E; [|discriminate].
    inversion E; subst. simpl. destruct t; reflexivity.
  - simpl in H. destruct (Str.strip_prefix sep (String c s)) eqn:E.
    + inversion H; subst. simpl (String c s ++ t).
      apply (strip_prefix_app _ _ _ t) in E. simpl in E.
      simpl. now rewrite E.
    + destruct (Str.cut sep s) as [[b a]|] eqn:C; [|discriminate].
      inversion H; subst.
      assert (L : String.length sep <= String.length (String c s)).
      { apply cut_length in C. simpl. lia. }
      apply (strip_prefix_none_app _ _ t) in E; [|assumption].
      simpl in E. simpl. rewrite E. now rewrite (IH _ _ eq_refl).
Qed.

Section Split.

Variable sep : string.
Hypothesis sep_not_empty : 0 < String.length sep.

Lemma cut_shorter (s before after : string) :
  Str.cut sep s = Some (before, after) -> String.length after < String.length s.
Proof.
  intros H. apply cut_length in H. lia.
Qed.

Lemma cut_empty : Str.cut sep EmptyString = None.
Proof.
  destruct sep; simpl in *; [lia | reflexivity].
Qed.

Lemma split_fuel_enough (f1 f2 : nat) (s : string) :
  String.length s <= f1 -> String.length s <= f2 ->
  Str.split_fuel f1 sep s = Str.split_fuel f2 sep s.
Proof.
  revert f2 s; induction f1 as [|f1 IH]; intros f2 s L1 L2.
  - destruct s; simpl in L1; [|lia].
    destruct f2; cbn [Str.split_fuel]; [reflexivity | now rewrite cut_empty].
  - destruct f2 as [|f2].
    + destruct s; simpl in L2; [|lia].
      cbn [Str.split_fuel]. now rewrite cut_empty.
    + cbn [Str.split_fuel].
      destruct (Str.cut sep s) as [[b a]|] eqn:C; [|reflexivity].
      apply cut_shorter in C. f_equal. apply IH; lia.
Qed.

(** The equation of [split]. *)
Lemma split_eq (s : string) :
  Str.split s sep =
  match Str.cut sep s with
  | Some (before, after) => before :: Str.split after sep
  | None => [s]
  end.
Proof.
  unfold Str.split. destruct (String.length s) as [|n] eqn:L.
  - destruct s; simpl in L; [|discriminate]. now rewrite cut_empty.
  - cbn [Str.split_fuel].
    destruct (Str.cut sep s) as [[b a]|] eqn:C; [|reflexivity].
    apply cut_shorter in C. f_equal. apply split_fuel_enough; lia.
Qed.

(** A text splits into complete pieces and a last one, which holds no
    separator; the complete pieces stay what they are whatever comes after
    the text, and the last one goes on. *)
Lemma split_continues (s : string) :
  exists (complete : list string) (last : string),
    Str.split s sep = (complete ++ [last])%list /\
    Str.cut sep last = None /\
    forall t,
      Str.split (s ++ t) sep = (complete ++ Str.split (last ++ t) sep)%list.
Proof.
  remember (String.length s) as n eqn:L.
  assert (B : String.length s <= n) by lia. clear L.
  revert s B; induction n as [|n IH]; intros s B.
  - destruct s; simpl in B; [|lia].
    exists [], EmptyString. split; [|split].
    + now rewrite split_eq, cut_empty.
    + apply cut_empty.
    + reflexivity.
  - destruct (Str.cut sep s) as [[b a]|] eqn:C.
    + destruct (IH a) as (complete & last & E & N & K).
      { apply cut_shorter in C. lia. }
      exists (b :: complete), last. split; [|split].
      * rewrite split_eq, C, E. reflexivity.
      * exact N.
      * intros t. rewrite split_eq, (cut_app _ _ _ _ t C), K. reflexivity.
    + exists [], s. split; [|split].
      * rewrite split_eq, C. reflexivity.
      * exact C.
      * reflexivity.
Qed.

(** When no separator begins in [r], the first piece of [r], a separator
    and more text is [r]. *)
Lemma split_first (r rest : string) :
  Str.cut sep (r ++ sep ++ rest) = Some (r, rest) ->
  Str.split (r ++ sep ++ rest) sep = r :: Str.split rest sep.
Proof.
  intros C. now rewrite split_eq, C.
Qed.

Lemma split_none (s : string) :
  Str.cut sep s = None -> Str.split s sep = [s].
Proof.
  intros C. now rewrite split_eq, C.
Qed.

End Split.

Lemma LFLF_not_empty : 0 < String.length LFLF.
Proof. simpl. lia. Qed.

Lemma LF_not_empty : 0 < String.length LF.
Proof. simpl. lia. Qed.

(** ** The stream, piece by piece *)

Lemma concat_cons (c : string) (cs : list string) :
  Str.concat (c :: cs) = c ++ Str.concat cs.
Proof.
  unfold Str.concat. destruct cs as [|d cs]; simpl.
  - now rewrite append_empty_r.
  - reflexivity.
Qed.

Lemma Array_pop_last {A : Type} (l : list A) (x : A) :
  Array_pop (l ++ [x]) = (Some x, l).
Proof.
  unfold Array_pop. rewrite rev_app_distr. simpl. now rewrite rev_involutive.
Qed.

Lemma or_string_empty (s : string) : or_string (Some s) EmptyString = s.
Proof.
  unfold or_string, ToBoolean. destruct (String.eqb_spec s EmptyString); simpl; congruence.
Qed.

Lemma carried_all_app (a b : list string) :
  carried_all (a ++ b) = (carried_all a ++ carried_all b)%list.
Proof.
  induction a as [|x a IH]; simpl; [reflexivity|].
  destruct (carried x); simpl; now rewrite IH.
Qed.

Lemma carried_all_last (a : list string) (x : string) :
  carried_all (a ++ [x]) = (carried_all a ++ option_list (carried x))%list.
Proof.
  rewrite carried_all_app. simpl. now destruct (carried x).
Qed.

Section Stream.

Variable model : JsValue.
Variable responseId : string.
Variable created : Z.

Local Abbreviation tm := (transform_message model responseId created).
Local Abbreviation frames := (content_frames model responseId created).
Local Abbreviation aft := (after model responseId created).

Lemma content_frames_false (fs : list JsValue) :
  frames false fs =
  map (fun g => transformStreamChunk g model responseId created false) fs.
Proof.
  destruct fs; reflexivity.
Qed.

Lemma after_nil (st : StreamState) : aft st [] = st.
Proof.
  destruct st; unfold aft, after; simpl. now rewrite app_nil_r.
Qed.

Lemma after_app (st : StreamState) (fs1 fs2 : list JsValue) :
  aft (aft st fs1) fs2 = aft st (fs1 ++ fs2).
Proof.
  destruct fs1 as [|f fs1].
  - now rewrite after_nil.
  - unfold aft, after; simpl. f_equal.
    + now destruct fs2.
    + rewrite <- app_assoc. f_equal. simpl. f_equal.
      fold (frames false fs2). rewrite content_frames_false.
      now rewrite map_app.
Qed.

Lemma after_with_buffer (st : StreamState) (b : string) (fs : list JsValue) :
  aft (with_buffer st b) fs = with_buffer (aft st fs) b.
Proof.
  reflexivity.
Qed.

(** One round of the loop of [transform] enqueues the frame of the fragment
    the message carries, if it carries one. *)
Lemma transform_message_after (st : StreamState) (msg : string) :
  tm st msg = aft st (option_list (carried msg)).
Proof.
  unfold tm, transform_message, carried, fragment_of, try_catch.
  destruct (Str.startsWith msg "data: "); [|now rewrite after_nil].
  destruct (JSON.parse (Str.slice_from 6 msg)) as [data|]; [|now rewrite after_nil].
  destruct (get data "chunk") as [chunk|]; [|now rewrite after_nil].
  destruct (ToBoolean chunk); [reflexivity | now rewrite after_nil].
Qed.

Lemma fold_transform_message (pieces : list string) (st : StreamState) :
  fold_left tm pieces st = aft st (carried_all pieces).
Proof.
  revert st; induction pieces as [|p pieces IH]; intros st; simpl.
  - now rewrite after_nil.
  - rewrite IH, transform_message_after, after_app.
    now destruct (carried p).
Qed.

(** [transform] on a chunk: the complete pieces of the buffer and the chunk
    are worked through, the last piece is the new buffer. *)
Lemma transform_after (st : StreamState) (chunk : string)
    (complete : list string) (last : string) :
  Str.split (buffer st ++ chunk) LFLF = (complete ++ [last])%list ->
  transform model responseId created st chunk =
  with_buffer (aft st (carried_all complete)) last.
Proof.
  intros E. unfold transform. rewrite E, Array_pop_last, or_string_empty.
  fold tm. rewrite fold_transform_message. reflexivity.
Qed.

(** The chunks of a body, one after the other, leave the stream where the
    whole text in one chunk leaves it. *)
Lemma fold_transform (chunks : list string) (st : StreamState) :
  Str.cut LFLF (buffer st) = None ->
  exists (complete : list string) (last : string),
    Str.split (buffer st ++ Str.concat chunks) LFLF = (complete ++ [last])%list /\
    fold_left (transform model responseId created) chunks st =
    with_buffer (aft st (carried_all complete)) last.
Proof.
  revert st; induction chunks as [|c chunks IH]; intros st N.
  - exists [], (buffer st). split.
    + unfold Str.concat; simpl. rewrite append_empty_r.
      now apply split_none; [apply LFLF_not_empty|].
    + simpl. rewrite after_nil. now destruct st.
  - destruct (split_continues LFLF LFLF_not_empty (buffer st ++ c))
      as (complete1 & last1 & E1 & N1 & K1).
    pose proof (transform_after st c complete1 last1 E1) as T.
    destruct (IH (transform model responseId created st c))
      as (complete2 & last2 & E2 & F2).
    { now rewrite T. }
    rewrite T in E2. simpl in E2.
    exists (complete1 ++ complete2)%list, last2. split.
    + rewrite concat_cons, <- append_assoc, K1, E2. now rewrite app_assoc.
    + simpl. rewrite F2, T. rewrite carried_all_app, <- after_app.
      reflexivity.
Qed.

Lemma flush_after (st : StreamState) :
  enqueued (flush model responseId created st) =
  (enqueued (aft st (option_list (carried (buffer st))))
   ++ [createStreamEndChunk model responseId created])%list.
Proof.
  unfold flush, carried, fragment_of, try_catch. f_equal.
  destruct (Str.startsWith (buffer st) "data: "); [|now rewrite after_nil].
  destruct (JSON.parse (Str.slice_from 6 (buffer st))) as [data|];
    [|now rewrite after_nil].
  destruct (get data "chunk") as [chunk|]; [|now rewrite after_nil].
  destruct (ToBoolean chunk); [reflexivity | now rewrite after_nil].
Qed.

(** What the stream gives for a body: the frames of the fragments the
    pieces of the whole text carry, and the end. *)
Lemma pipeThrough_split (chunks : list string) :
  pipeThrough model responseId created chunks =
  (frames true (carried_all (Str.split (Str.concat chunks) LFLF))
   ++ [createStreamEndChunk model responseId created])%list.
Proof.
  unfold pipeThrough.
  destruct (fold_transform chunks initial eq_refl) as (complete & last & E & F).
  simpl in E. rewrite F, E, flush_after. simpl buffer.
  rewrite carried_all_last. f_equal.
  change (with_buffer (aft initial (carried_all complete)) last)
    with (aft (with_buffer initial last) (carried_all complete)).
  rewrite after_app. reflexivity.
Qed.

End Stream.

(** ** Records between separators *)

Lemma cut_unfold (sep s : string) :
  Str.cut sep s =
  match Str.strip_prefix sep s with
  | Some rest => Some (EmptyString, rest)
  | None =>
      match s with
      | EmptyString => None
      | String c s' =>
          match Str.cut sep s' with
          | Some (before, after) => Some (String c before, after)
          | None => None
          end
      end
  end.
Proof.
  destruct s; reflexivity.
Qed.

Lemma strip_prefix_self (p rest : string) :
  Str.strip_prefix p (p ++ rest) = Some rest.
Proof.
  induction p as [|a p IH]; simpl; [reflexivity|].
  now rewrite Ascii.eqb_refl.
Qed.

Lemma cut_none_prefix (sep s t : string) :
  Str.cut sep (s ++ t) = None -> Str.cut sep s = None.
Proof.
  intros H. destruct (Str.cut sep s) as [[b a]|] eqn:C; [|reflexivity].
  rewrite (cut_app _ _ _ _ t C) in H. discriminate.
Qed.

(** When the separator is [sep0] and one more character, and none begins
    in [r] even with [sep0] after it, the leftmost separator of [r], a
    separator and more text is the one after [r]. *)
Lemma cut_at (sep sep0 : string) (z : ascii) (r rest : string) :
  sep = sep0 ++ String z EmptyString ->
  Str.cut sep (r ++ sep0) = None ->
  Str.cut sep (r ++ sep ++ rest) = Some (r, rest).
Proof.
  intros S. induction r as [|c r IH]; intros H.
  - change (EmptyString ++ sep ++ rest) with (sep ++ rest).
    rewrite cut_unfold, strip_prefix_self. reflexivity.
  - change (String c r ++ sep0) with (String c (r ++ sep0)) in H.
    rewrite cut_unfold in H.
    destruct (Str.strip_prefix sep (String c (r ++ sep0))) eqn:P; [discriminate|].
    destruct (Str.cut sep (r ++ sep0)) as [[b a]|] eqn:C; [discriminate|].
    change (String c r ++ sep ++ rest) with (String c (r ++ sep ++ rest)).
    rewrite cut_unfold.
    apply (strip_prefix_none_app _ _ (String z rest)) in P.
    + assert (E : String c (r ++ sep0) ++ String z rest
                  = String c (r ++ sep ++ rest)).
      { simpl. f_equal. rewrite S. now rewrite !append_assoc. }
      rewrite E in P. rewrite P. now rewrite (IH eq_refl).
    + rewrite S. simpl. rewrite !length_append. simpl. lia.
Qed.

Lemma unbroken_cut (r rest : string) :
  unbroken r -> Str.cut LFLF (r ++ LFLF ++ rest) = Some (r, rest).
Proof.
  intros H. exact (cut_at LFLF LF (ascii_of_nat 10) r rest eq_refl H).
Qed.

Lemma one_line_cut (r rest : string) :
  one_line r -> Str.cut LF (r ++ LF ++ rest) = Some (r, rest).
Proof.
  intros H. apply (cut_at LF EmptyString (ascii_of_nat 10) r rest eq_refl).
  now rewrite append_empty_r.
Qed.

Lemma carried_empty : carried EmptyString = None.
Proof. reflexivity. Qed.

(** The pieces of well-formed text carry what its records carry. *)
Lemma carried_sse_text (records : list string) (terminated : bool) :
  Forall unbroken records ->
  carried_all (Str.split (sse_text records terminated) LFLF)
  = carried_all records.
Proof.
  induction records as [|r records IH]; intros W; [reflexivity|].
  inversion W as [|r' records' U W']; subst.
  destruct records as [|r2 records].
  - simpl. destruct terminated.
    + rewrite <- (append_empty_r LFLF), append_empty_r at 1.
      rewrite <- (append_empty_r (r ++ LFLF)), append_assoc.
      rewrite (split_first LFLF LFLF_not_empty _ _ (unbroken_cut r _ U)).
      simpl. now destruct (carried r).
    + rewrite (split_none LFLF LFLF_not_empty).
      * reflexivity.
      * exact (cut_none_prefix _ _ _ U).
  - change (sse_text (r :: r2 :: records) terminated)
      with (r ++ LFLF ++ sse_text (r2 :: records) terminated).
    rewrite (split_first LFLF LFLF_not_empty _ _ (unbroken_cut r _ U)).
    change (carried_all (r :: Str.split (sse_text (r2 :: records) terminated) LFLF))
      with (match carried r with
            | Some f => f :: carried_all (Str.split (sse_text (r2 :: records) terminated) LFLF)
            | None => carried_all (Str.split (sse_text (r2 :: records) terminated) LFLF)
            end).
    rewrite (IH W'). reflexivity.
Qed.

Lemma carried_record (payload : string) (data : JsValue) :
  JSON.parse payload = Some data ->
  carried (record payload) = fragment_of data.
Proof.
  intros P. unfold carried, record.
  assert (S : Str.startsWith ("data: " ++ payload) "data: " = true).
  { unfold Str.startsWith. simpl. destruct payload; reflexivity. }
  rewrite S.
  change (Str.slice_from 6 ("data: " ++ payload)) with payload.
  now rewrite P.
Qed.

Lemma carried_records (payloads : list string) (datas : list JsValue) :
  Forall2 (fun p d => JSON.parse p = Some d) payloads datas ->
  carried_all (map record payloads) = fragments datas.
Proof.
  induction 1 as [|p d payloads datas P _ IH]; [reflexivity|].
  simpl. rewrite (carried_record p d P), IH. reflexivity.
Qed.

(** ** Frames and what they hold *)

Lemma fragment_of_truthy (data f : JsValue) :
  fragment_of data = Some f -> ToBoolean f = true.
Proof.
  unfold fragment_of. destruct (get data "chunk") as [chunk|]; [|discriminate].
  destruct (ToBoolean chunk) eqn:T; [|discriminate].
  now intros [= <-].
Qed.

Lemma fragments_truthy (datas : list JsValue) :
  Forall (fun f => ToBoolean f = true) (fragments datas).
Proof.
  induction datas as [|d datas IH]; simpl; [constructor|].
  destruct (fragment_of d) eqn:F; [|assumption].
  constructor; [exact (fragment_of_truthy _ _ F) | assumption].
Qed.

Lemma carried_truthy (piece : string) (f : JsValue) :
  carried piece = Some f -> ToBoolean f = true.
Proof.
  unfold carried. destruct (Str.startsWith piece "data: "); [|discriminate].
  destruct (JSON.parse (Str.slice_from 6 piece)); [|discriminate].
  apply fragment_of_truthy.
Qed.

Lemma carried_all_truthy (pieces : list string) :
  Forall (fun f => ToBoolean f = true) (carried_all pieces).
Proof.
  induction pieces as [|p pieces IH]; simpl; [constructor|].
  destruct (carried p) eqn:F; [|assumption].
  constructor; [exact (carried_truthy _ _ F) | assumption].
Qed.

Section Frames.

Variable model : JsValue.
Variable responseId : string.
Variable created : Z.

Local Abbreviation chunk_frame := 
  (fun f first => transformStreamChunk f model responseId created first).
Local Abbreviation end_frame := (createStreamEndChunk model responseId created).
Local Abbreviation frames := (content_frames model responseId created).

Lemma frame_fragment_chunk (f : JsValue) (first : bool) :
  ToBoolean f = true -> frame_fragment (chunk_frame f first) = Some f.
Proof.
  intros T. destruct first, f; simpl in T; try discriminate; reflexivity.
Qed.

Lemma frame_fragment_end : frame_fragment end_frame = None.
Proof. reflexivity. Qed.

Lemma emitted_later (fs : list JsValue) :
  Forall (fun f => ToBoolean f = true) fs ->
  emitted_fragments (map (fun g => chunk_frame g false) fs ++ [end_frame]) = fs.
Proof.
  induction 1 as [|f fs T _ IH]; [reflexivity|].
  cbn [map app emitted_fragments].
  now rewrite (frame_fragment_chunk f false T), IH.
Qed.

(** The fragments of the frames of [fs] and the end are [fs]. *)
Lemma emitted_content_frames (first : bool) (fs : list JsValue) :
  Forall (fun f => ToBoolean f = true) fs ->
  emitted_fragments (frames first fs ++ [end_frame]) = fs.
Proof.
  intros W. destruct fs as [|f fs]; [reflexivity|].
  inversion W as [|f' fs' T W']; subst.
  cbn [content_frames app emitted_fragments].
  now rewrite (frame_fragment_chunk f first T), (emitted_later fs W').
Qed.

End Frames.

(** ** Frame ordering *)

(** C1.  For every sequence of chunks whose text is well-formed records
    with a blank line between them (and after the last one or not), the
    stream emits exactly the fragments the records carry, in their order,
    however the text is cut into chunks: the frames of these fragments, the
    first one with the role, and the end. *)
Theorem frame_ordering
    (model : JsValue) (responseId : string) (created : Z)
    (payloads : list string) (datas : list JsValue) (terminated : bool)
    (chunks : list string) :
  Forall2 (fun p d => JSON.parse p = Some d) payloads datas ->
  Forall (fun p => unbroken (record p)) payloads ->
  Str.concat chunks = sse_text (map record payloads) terminated ->
  emitted_fragments (pipeThrough model responseId created chunks)
  = fragments datas /\
  pipeThrough model responseId created chunks
  = (content_frames model responseId created true (fragments datas)
     ++ [createStreamEndChunk model responseId created])%list.
Proof.
  intros P U E.
  assert (S : pipeThrough model responseId created chunks
              = (content_frames model responseId created true (fragments datas)
                 ++ [createStreamEndChunk model responseId created])%list).
  { rewrite pipeThrough_split, E, carried_sse_text.
    - now rewrite (carried_records _ _ P).
    - now apply Forall_map. }
  split; [|exact S].
  rewrite S. apply emitted_content_frames, fragments_truthy.
Qed.

(** Three records, the second one without fragment, in four chunks. *)
Lemma frame_ordering_witness :
  emitted_fragments
    (pipeThrough (JString "m") "chatcmpl-1" 1700000000 example_chunks)
  = [JString "Hel"; JString "lo"] /\
  pipeThrough (JString "m") "chatcmpl-1" 1700000000 example_chunks
  = [ transformStreamChunk (JString "Hel") (JString "m") "chatcmpl-1" 1700000000 true;
      transformStreamChunk (JString "lo") (JString "m") "chatcmpl-1" 1700000000 false;
      createStreamEndChunk (JString "m") "chatcmpl-1" 1700000000 ].
Proof.
  apply (frame_ordering (JString "m") "chatcmpl-1" 1700000000
           [chunk_payload "Hel"; done_payload; chunk_payload "lo"]
           [JObject [("chunk", JString "Hel")];
            JObject [("done", JBool true)];
            JObject [("chunk", JString "lo")]]
           true).
  - repeat constructor.
  - repeat constructor.
  - reflexivity.
Defined.

(** The stream of a body does not depend on its chunks, well-formed or
    not: it is the stream of the whole text in one chunk. *)
Lemma pipeThrough_one_chunk
    (model : JsValue) (responseId : string) (created : Z)
    (chunks : list string) :
  pipeThrough model responseId created chunks
  = pipeThrough model responseId created [Str.concat chunks].
Proof.
  rewrite !pipeThrough_split. unfold Str.concat at 2. reflexivity.
Qed.

(** A record that is no JSON between two records that are: both fragments
    come out, in order. *)
Example malformed_frame_tolerance :
  emitted_fragments
    (pipeThrough (JString "m") "chatcmpl-1" 1700000000
       [ record (chunk_payload "a") ++ LFLF ++ "data: {not json" ++ LFLF;
         record (chunk_payload "b") ++ LFLF ])
  = [JString "a"; JString "b"].
Proof. reflexivity. Qed.

(** A body of one record and no blank line: [transform] keeps it all in the
    buffer, and [flush] emits its fragment, with the role. *)
Example fragment_in_flush :
  enqueued
    (fold_left (transform (JString "m") "chatcmpl-1" 1700000000)
       [ "data: {" ++ quoted "chunk"; ":" ++ quoted "x" ++ "}" ] initial) = [] /\
  pipeThrough (JString "m") "chatcmpl-1" 1700000000
    [ "data: {" ++ quoted "chunk"; ":" ++ quoted "x" ++ "}" ]
  = [ transformStreamChunk (JString "x") (JString "m") "chatcmpl-1" 1700000000 true;
      createStreamEndChunk (JString "m") "chatcmpl-1" 1700000000 ].
Proof. split; reflexivity. Qed.

(** ** The shape of the stream *)

Lemma Forall_content_frames
    (P : Text -> Prop) (model : JsValue) (responseId : string) (created : Z)
    (first : bool) (fs : list JsValue) :
  (forall f b, P (transformStreamChunk f model responseId created b)) ->
  Forall P (content_frames model responseId created first fs).
Proof.
  intros H. destruct fs as [|f fs]; [constructor|].
  constructor; [apply H|].
  apply Forall_map. apply Forall_forall. intros g _. apply H.
Qed.

(** C4 fails as stated: when the body of the upstream errors after the
    record of one fragment, the stream is the frame of the fragment and then
    the error; [flush] has not run, so the terminal chunk and the
    [data: [DONE]] frame are not sent. *)
Lemma termination_counterexample :
  caller_stream example_env [record (chunk_payload "Hel") ++ LFLF] Errors
    (JString "m")
  = ([transformStreamChunk (JString "Hel") (JString "m")
        (generateId example_env) (seconds example_env) true],
     Errors) /\
  ~ In (createStreamEndChunk (JString "m") (generateId example_env)
          (seconds example_env))
       (fst (caller_stream example_env [record (chunk_payload "Hel") ++ LFLF]
               Errors (JString "m"))).
Proof.
  split; [reflexivity|].
  intros [H|[]]. apply (f_equal frame_tail) in H.
  vm_compute in H. discriminate H.
Qed.

(** C4, amended.  The stream of every streaming call whose upstream body
    ends without error ends with the terminal chunk, of empty delta and
    finish reason [stop], and the literal [data: [DONE]] frame right after
    it, and then closes; the frames before have a null finish reason and
    nothing after their blank line, so the terminal pair is there once, and
    last, whatever the fragments. *)
Theorem termination_on_close
    (env : Env) (upstream_status : Z) (chunks : list string)
    (ending : Ending) (model : JsValue) :
  ending = Closes ->
  exists content : list Text,
    caller_stream env chunks ending model
    = ((content
        ++ [createStreamEndChunk model (generateId env) (seconds env)])%list,
       Closes) /\
    body (handleStreamingResponse env
            {| up_status := upstream_status; up_body := Some chunks |} model)
    = StreamBody
        (content ++ [createStreamEndChunk model (generateId env) (seconds env)]) /\
    Forall (fun t => frame_finish_reason t = Some JNull /\
                     frame_tail t = Some LFLF) content /\
    frame_delta (createStreamEndChunk model (generateId env) (seconds env))
    = Some (JObject []) /\
    frame_finish_reason
      (createStreamEndChunk model (generateId env) (seconds env))
    = Some (JString "stop") /\
    frame_tail (createStreamEndChunk model (generateId env) (seconds env))
    = Some (LFLF ++ "data: [DONE]" ++ LFLF).
Proof.
  intros ->.
  exists (content_frames model (generateId env) (seconds env) true
            (carried_all (Str.split (Str.concat chunks) LFLF))).
  assert (S : pipeThrough model (generateId env) (seconds env) chunks
              = (content_frames model (generateId env) (seconds env) true
                   (carried_all (Str.split (Str.concat chunks) LFLF))
                 ++ [createStreamEndChunk model (generateId env) (seconds env)])%list)
    by apply pipeThrough_split.
  split; [|split; [|split; [|repeat split]]].
  - unfold caller_stream, pipeThroughUntil. fold (pipeThrough model (generateId env) (seconds env) chunks).
    now rewrite S.
  - unfold handleStreamingResponse. cbn [up_body body]. now rewrite S.
  - apply Forall_content_frames. intros f b. split; reflexivity.
Qed.

(** The three records of the examples, from a body that closes. *)
Lemma termination_on_close_witness :
  exists content : list Text,
    caller_stream example_env example_chunks Closes (JString "m")
    = ((content
        ++ [createStreamEndChunk (JString "m") (generateId example_env)
              (seconds example_env)])%list,
       Closes) /\
    body (handleStreamingResponse example_env
            {| up_status := 200; up_body := Some example_chunks |} (JString "m"))
    = StreamBody
        (content ++ [createStreamEndChunk (JString "m") (generateId example_env)
                       (seconds example_env)]) /\
    Forall (fun t => frame_finish_reason t = Some JNull /\
                     frame_tail t = Some LFLF) content /\
    frame_delta (createStreamEndChunk (JString "m") (generateId example_env)
                   (seconds example_env))
    = Some (JObject []) /\
    frame_finish_reason
      (createStreamEndChunk (JString "m") (generateId example_env)
         (seconds example_env))
    = Some (JString "stop") /\
    frame_tail (createStreamEndChunk (JString "m") (generateId example_env)
                  (seconds example_env))
    = Some (LFLF ++ "data: [DONE]" ++ LFLF).
Proof.
  apply (termination_on_close example_env 200 example_chunks Closes (JString "m")).
  reflexivity.
Defined.

(** When the body errors, whatever it has delivered, the terminal chunk is
    not among the frames of the stream. *)
Lemma no_terminal_on_error
    (env : Env) (chunks : list string) (model : JsValue) :
  snd (caller_stream env chunks Errors model) = Errors /\
  Forall (fun t => frame_finish_reason t = Some JNull /\
                   frame_tail t = Some LFLF)
    (fst (caller_stream env chunks Errors model)).
Proof.
  split; [reflexivity|].
  unfold caller_stream, pipeThroughUntil. cbn [fst].
  destruct (fold_transform model (generateId env) (seconds env) chunks initial
              eq_refl) as (complete & last & _ & F).
  rewrite F. cbn [with_buffer after enqueued initial app].
  apply Forall_content_frames. intros f b. split; reflexivity.
Qed.

(** C5.  In every stream, the content chunks are the frames before the
    terminal one; the delta of the first is the role and the fragment, the
    delta of every other one is the fragment alone, and the finish reason
    of each is null, wherever in the body the fragments come. *)
Theorem first_chunk_framing
    (model : JsValue) (responseId : string) (created : Z)
    (chunks : list string) :
  let stream := pipeThrough model responseId created chunks in
  map frame_delta (removelast stream) = deltas (emitted_fragments stream) /\
  Forall (fun t => frame_finish_reason t = Some JNull) (removelast stream).
Proof.
  cbn zeta. rewrite pipeThrough_split, removelast_last.
  rewrite (emitted_content_frames _ _ _ _ _ (carried_all_truthy _)).
  set (fs := carried_all (Str.split (Str.concat chunks) LFLF)).
  split.
  - destruct fs as [|f fs]; [reflexivity|].
    cbn [content_frames map deltas]. f_equal.
    rewrite map_map. reflexivity.
  - apply Forall_content_frames. reflexivity.
Qed.

(** C8.  Every frame of the stream of one call, the terminal one too,
    carries the response id and the creation time taken once when the call
    begins. *)
Theorem stable_identity
    (env : Env) (upstream_status : Z) (chunks : list string) (model : JsValue) :
  exists stream : list Text,
    body (handleStreamingResponse env
            {| up_status := upstream_status; up_body := Some chunks |} model)
    = StreamBody stream /\
    Forall (fun t => frame_id t = Some (JString (generateId env)) /\
                     frame_created t = Some (JNumber (seconds env) 0)) stream.
Proof.
  eexists. split; [reflexivity|].
  rewrite pipeThrough_split. apply Forall_app. split.
  - apply Forall_content_frames. intros f b. split; reflexivity.
  - repeat constructor.
Qed.

(** ** Request mapping *)

Lemma get_total (v : JsValue) (k1 k2 : string) (x : JsValue) :
  get v k1 = Some x -> exists y, get v k2 = Some y.
Proof.
  destruct v; simpl; try discriminate; eauto.
Qed.

(** C7.  The request [transformRequest] builds has the model of the input
    as its [modelId], the messages of the input, the very same value, as
    its [messages], and a [webSearchEnabled], which is [true], if and only
    if the [web_search] of the input is truthy; it has none otherwise. *)
Theorem request_mapping (openaiReq model messages web_search : JsValue) :
  get openaiReq "model" = Some model ->
  get openaiReq "messages" = Some messages ->
  get openaiReq "web_search" = Some web_search ->
  exists result,
    transformRequest openaiReq = Some result /\
    get result "modelId" = Some model /\
    get result "messages" = Some messages /\
    (In "webSearchEnabled" (own_keys result) <-> ToBoolean web_search = true) /\
    get result "webSearchEnabled"
    = Some (if ToBoolean web_search then JBool true else JUndefined).
Proof.
  intros M S W. unfold transformRequest. rewrite M, S, W.
  eexists. split; [reflexivity|].
  destruct (ToBoolean web_search); cbn.
  - repeat split; auto.
  - repeat split; auto; try discriminate.
    intros [H|[H|[]]]; discriminate.
Qed.

(** The request [{"model":"m","messages":[...],"web_search":true}]. *)
Lemma request_mapping_witness :
  exists result,
    transformRequest
      (JObject [("model", JString "m"); ("messages", example_messages);
                ("web_search", JBool true)])
    = Some result /\
    get result "modelId" = Some (JString "m") /\
    get result "messages" = Some example_messages /\
    (In "webSearchEnabled" (own_keys result) <-> true = true) /\
    get result "webSearchEnabled" = Some (JBool true).
Proof.
  apply (request_mapping
           (JObject [("model", JString "m"); ("messages", example_messages);
                     ("web_search", JBool true)])
           (JString "m") example_messages (JBool true));
    reflexivity.
Defined.

(** C9.  The request [transformRequest] builds is an object whose
    properties are [modelId] and [messages], and [webSearchEnabled] after
    them or not: nothing else of the input, so neither its [temperature],
    nor its [max_tokens], nor its [stream]. *)
Theorem only_mapped_fields (openaiReq result : JsValue) :
  transformRequest openaiReq = Some result ->
  (exists props, result = JObject props) /\
  (own_keys result = ["modelId"; "messages"] \/
   own_keys result = ["modelId"; "messages"; "webSearchEnabled"]) /\
  ~ In "temperature" (own_keys result) /\
  ~ In "max_tokens" (own_keys result) /\
  ~ In "stream" (own_keys result).
Proof.
  unfold transformRequest.
  destruct (get openaiReq "model") as [model|]; [|discriminate].
  destruct (get openaiReq "messages") as [messages|]; [|discriminate].
  destruct (get openaiReq "web_search") as [web_search|]; [|discriminate].
  intros [= <-]. split; [eauto|].
  destruct (ToBoolean web_search); cbn; repeat split; auto;
    intros H; repeat (destruct H as [H|H]; try discriminate); exact H.
Qed.

(** A request with a temperature, a token limit and the stream flag. *)
Lemma only_mapped_fields_witness :
  (exists props, example_mapped = JObject props) /\
  (own_keys example_mapped = ["modelId"; "messages"] \/
   own_keys example_mapped = ["modelId"; "messages"; "webSearchEnabled"]) /\
  ~ In "temperature" (own_keys example_mapped) /\
  ~ In "max_tokens" (own_keys example_mapped) /\
  ~ In "stream" (own_keys example_mapped).
Proof.
  apply (only_mapped_fields
           (JObject [("model", JString "m"); ("messages", example_messages);
                     ("temperature", JNumber 7 (-1));
                     ("max_tokens", JNumber 100 0);
                     ("stream", JBool true)])).
  reflexivity.
Defined.

(** ** The dispatcher *)

Section Dispatcher.

Variable Number_toString : Z -> Z -> string.
Variable env : Env.

Local Abbreviation handle := (handleChatCompletions Number_toString env).

Lemma transformRequest_total (openaiReq model : JsValue) :
  get openaiReq "model" = Some model ->
  exists infiniaxReq, transformRequest openaiReq = Some infiniaxReq.
Proof.
  intros M. unfold transformRequest. rewrite M.
  destruct (get_total _ _ "messages" _ M) as [messages ->].
  destruct (get_total _ _ "web_search" _ M) as [web_search ->].
  eauto.
Qed.

(** A validated request goes to the upstream, and the answer decides. *)
Lemma dispatch
    (fetch : FetchRequest -> option UpstreamResponse)
    (requestBody : string) (openaiReq model stream : JsValue) :
  validated requestBody openaiReq model ->
  get openaiReq "stream" = Some stream ->
  exists request : FetchRequest,
    handle fetch requestBody =
    match fetch request with
    | None => errorResponse "Upstream error" 502
    | Some upstreamResponse =>
        if negb (ok upstreamResponse) then
          handleUpstreamError (up_status upstreamResponse)
        else if strict_eq_true stream then
          handleStreamingResponse env upstreamResponse model
        else
          handleNonStreamingResponse Number_toString env upstreamResponse model
    end.
Proof.
  intros (P & M & TM & messages & S & TS) St.
  destruct (transformRequest_total _ _ M) as [infiniaxReq T].
  unfold handleChatCompletions.
  rewrite P, M, TM, S, TS, T, St. cbn [negb].
  exists {| url := UPSTREAM_URL;
            method := "POST";
            req_headers :=
              [("Content-Type", "application/json");
               ("Cookie", or_string (COOKIE env) EmptyString)];
            req_body := [Stringify infiniaxReq] |}.
  unfold try_catch.
  destruct (fetch _) as [up|]; [|reflexivity].
  destruct (negb (ok up)); [reflexivity|].
  destruct (strict_eq_true stream); reflexivity.
Qed.

Lemma dispatch_answering
    (up : UpstreamResponse)
    (requestBody : string) (openaiReq model stream : JsValue) :
  validated requestBody openaiReq model ->
  get openaiReq "stream" = Some stream ->
  handle (answering up) requestBody =
  if negb (ok up) then handleUpstreamError (up_status up)
  else if strict_eq_true stream then handleStreamingResponse env up model
  else handleNonStreamingResponse Number_toString env up model.
Proof.
  intros V St. destruct (dispatch (answering up) _ _ _ _ V St) as [request E].
  exact E.
Qed.

Lemma validated_stream (requestBody : string) (openaiReq model : JsValue) :
  validated requestBody openaiReq model ->
  exists stream, get openaiReq "stream" = Some stream.
Proof.
  intros (_ & M & _). exact (get_total _ _ _ _ M).
Qed.

End Dispatcher.

(** C3.  The cases of the error table: for a request that passes
    validation, an upstream status 401 gives 401 and [Authentication
    failed], an upstream status 500 gives 502 and [Upstream error], an
    upstream that cannot be reached gives 502 and [Upstream error]; the
    body [not valid json] gives 400 and [Invalid JSON], the body
    [{"messages":[]}] gives 400 and [Missing required fields: model and
    messages]; and the body of each is [{"error":{"message":...}}]. *)
Theorem error_mapping
    (Number_toString : Z -> Z -> string) (env : Env)
    (requestBody : string) (openaiReq model : JsValue) :
  validated requestBody openaiReq model ->
  (forall b,
     handleChatCompletions Number_toString env
       (answering {| up_status := 401; up_body := b |}) requestBody
     = errorResponse "Authentication failed" 401) /\
  (forall b,
     handleChatCompletions Number_toString env
       (answering {| up_status := 500; up_body := b |}) requestBody
     = errorResponse "Upstream error" 502) /\
  (forall fetch,
     handleChatCompletions Number_toString env fetch "not valid json"
     = errorResponse "Invalid JSON" 400) /\
  (forall fetch,
     handleChatCompletions Number_toString env fetch
       ("{" ++ quoted "messages" ++ ":[]}")
     = errorResponse "Missing required fields: model and messages" 400) /\
  handleChatCompletions Number_toString env unreachable requestBody
  = errorResponse "Upstream error" 502 /\
  (forall message code,
     status (errorResponse message code) = code /\
     body (errorResponse message code)
     = TextBody [Stringify (JObject [("error",
                                      JObject [("message", JString message)])])]).
Proof.
  intros V. destruct (validated_stream _ _ _ V) as [stream St].
  repeat split.
  - intros b. now rewrite (dispatch_answering _ _ _ _ _ _ _ V St).
  - intros b. now rewrite (dispatch_answering _ _ _ _ _ _ _ V St).
  - destruct (dispatch Number_toString env unreachable _ _ _ _ V St)
      as [request E].
    exact E.
Qed.

(** The request of the examples, without stream flag. *)
Lemma error_mapping_witness :
  (forall b,
     handleChatCompletions integer_toString example_env
       (answering {| up_status := 401; up_body := b |})
       (example_request EmptyString)
     = errorResponse "Authentication failed" 401) /\
  (forall b,
     handleChatCompletions integer_toString example_env
       (answering {| up_status := 500; up_body := b |})
       (example_request EmptyString)
     = errorResponse "Upstream error" 502) /\
  (forall fetch,
     handleChatCompletions integer_toString example_env fetch "not valid json"
     = errorResponse "Invalid JSON" 400) /\
  (forall fetch,
     handleChatCompletions integer_toString example_env fetch
       ("{" ++ quoted "messages" ++ ":[]}")
     = errorResponse "Missing required fields: model and messages" 400) /\
  handleChatCompletions integer_toString example_env unreachable
    (example_request EmptyString)
  = errorResponse "Upstream error" 502 /\
  (forall message code,
     status (errorResponse message code) = code /\
     body (errorResponse message code)
     = TextBody [Stringify (JObject [("error",
                                      JObject [("message", JString message)])])]).
Proof.
  apply (error_mapping integer_toString example_env
           (example_request EmptyString)
           (JObject [("model", JString "m"); ("messages", example_messages)])
           (JString "m")).
  split; [reflexivity|].
  split; [reflexivity|].
  split; [reflexivity|].
  exists example_messages. split; reflexivity.
Defined.

(** ** A success without body *)

(** C6 fails as stated: a streaming call whose upstream answers 204, with
    no body, gets the status 502 with the message [No response body from
    upstream], not [Upstream error]. *)
Lemma missing_body_counterexample :
  handleChatCompletions integer_toString example_env
    (answering {| up_status := 204; up_body := None |})
    (example_request (stream_field "true"))
  = errorResponse "No response body from upstream" 502 /\
  handleChatCompletions integer_toString example_env
    (answering {| up_status := 204; up_body := None |})
    (example_request (stream_field "true"))
  <> errorResponse "Upstream error" 502.
Proof.
  split; [reflexivity|].
  intros H. apply (f_equal error_message) in H.
  vm_compute in H. discriminate H.
Qed.

(** C6, amended.  A streaming call whose upstream answers with a success
    status and no body fails with the status 502 and the error body whose
    message is [No response body from upstream]. *)
Theorem missing_body
    (Number_toString : Z -> Z -> string) (env : Env)
    (requestBody : string) (openaiReq model : JsValue) (upstream_status : Z) :
  validated requestBody openaiReq model ->
  get openaiReq "stream" = Some (JBool true) ->
  ok {| up_status := upstream_status; up_body := None |} = true ->
  handleChatCompletions Number_toString env
    (answering {| up_status := upstream_status; up_body := None |}) requestBody
  = errorResponse "No response body from upstream" 502.
Proof.
  intros V St O.
  rewrite (dispatch_answering _ _ _ _ _ _ _ V St), O. reflexivity.
Qed.

Lemma missing_body_witness :
  handleChatCompletions integer_toString example_env
    (answering {| up_status := 204; up_body := None |})
    (example_request (stream_field "true"))
  = errorResponse "No response body from upstream" 502.
Proof.
  apply (missing_body integer_toString example_env
           (example_request (stream_field "true"))
           (JObject [("model", JString "m"); ("messages", example_messages);
                     ("stream", JBool true)])
           (JString "m") 204).
  - split; [reflexivity|].
    split; [reflexivity|].
    split; [reflexivity|].
    exists example_messages. split; reflexivity.
  - reflexivity.
  - reflexivity.
Defined.

(** What the aggregating path makes of a success without body: the
    response of an empty body. *)
Lemma no_body_aggregated
    (Number_toString : Z -> Z -> string) (env : Env)
    (upstream_status : Z) (model : JsValue) :
  handleNonStreamingResponse Number_toString env
    {| up_status := upstream_status; up_body := None |} model
  = {| status := 200;
       headers := [("Content-Type", "application/json")];
       body := TextBody [Stringify (transformResponse env EmptyString model)] |}.
Proof. reflexivity. Qed.

(** ** Streaming or not *)

Lemma strict_eq_true_iff (v : JsValue) :
  strict_eq_true v = true <-> v = JBool true.
Proof.
  split; [|now intros ->].
  destruct v as [| |[|]| | | |]; simpl; congruence.
Qed.

(** C10.  A validated call whose upstream answers with a success status and
    a body takes the streaming path, and answers with an event stream, if
    and only if the [stream] of the request is the boolean [true]; with any
    other value, or none, the answer is the one aggregated JSON response of
    status 200. *)
Theorem streaming_choice
    (Number_toString : Z -> Z -> string) (env : Env)
    (requestBody : string) (openaiReq model stream : JsValue)
    (up : UpstreamResponse) (chunks : list string) :
  validated requestBody openaiReq model ->
  get openaiReq "stream" = Some stream ->
  ok up = true ->
  up_body up = Some chunks ->
  (stream = JBool true ->
   handleChatCompletions Number_toString env (answering up) requestBody
   = handleStreamingResponse env up model) /\
  (header "Content-Type"
     (headers (handleChatCompletions Number_toString env (answering up)
                 requestBody))
   = Some "text/event-stream" <-> stream = JBool true) /\
  (stream <> JBool true ->
   handleChatCompletions Number_toString env (answering up) requestBody
   = {| status := 200;
        headers := [("Content-Type", "application/json")];
        body :=
          TextBody
            [Stringify
               (transformResponse env
                  (parseInfiniaxSSE Number_toString (Str.concat chunks))
                  model)] |}).
Proof.
  intros V St O B.
  rewrite (dispatch_answering _ _ _ _ _ _ _ V St), O. cbn [negb].
  pose proof (strict_eq_true_iff stream) as I.
  destruct (strict_eq_true stream).
  - split; [reflexivity|]. split.
    + unfold handleStreamingResponse. rewrite B. cbn. tauto.
    + intros N. exfalso. apply N, I. reflexivity.
  - assert (N : stream <> JBool true) by (intros E; apply I in E; discriminate).
    split; [intros E; contradiction|]. split.
    + cbn. split; [discriminate | contradiction].
    + intros _. unfold handleNonStreamingResponse, text. now rewrite B.
Qed.

(** The request with ["stream":"true"], a text and not the boolean, against
    the upstream of the two records [Hel] and [lo]: the aggregated response
    with the content [Hello]. *)
Lemma streaming_choice_witness :
  (JString "true" = JBool true ->
   handleChatCompletions integer_toString example_env
     (answering {| up_status := 200; up_body := Some example_chunks |})
     (example_request (stream_field (quoted "true")))
   = handleStreamingResponse example_env
       {| up_status := 200; up_body := Some example_chunks |} (JString "m")) /\
  (header "Content-Type"
     (headers (handleChatCompletions integer_toString example_env
                 (answering {| up_status := 200; up_body := Some example_chunks |})
                 (example_request (stream_field (quoted "true")))))
   = Some "text/event-stream" <-> JString "true" = JBool true) /\
  (JString "true" <> JBool true ->
   handleChatCompletions integer_toString example_env
     (answering {| up_status := 200; up_body := Some example_chunks |})
     (example_request (stream_field (quoted "true")))
   = {| status := 200;
        headers := [("Content-Type", "application/json")];
        body :=
          TextBody
            [Stringify
               (transformResponse example_env
                  (parseInfiniaxSSE integer_toString (Str.concat example_chunks))
                  (JString "m"))] |}).
Proof.
  apply (streaming_choice integer_toString example_env
           (example_request (stream_field (quoted "true")))
           (JObject [("model", JString "m"); ("messages", example_messages);
                     ("stream", JString "true")])
           (JString "m") (JString "true")
           {| up_status := 200; up_body := Some example_chunks |}
           example_chunks).
  - split; [reflexivity|].
    split; [reflexivity|].
    split; [reflexivity|].
    exists example_messages. split; reflexivity.
  - reflexivity.
  - reflexivity.
  - reflexivity.
Defined.

(** The values of [stream] the specification names, one by one: the
    boolean [true] streams; no field, [false], [null], the text ["true"]
    and the number [1] do not. *)
Lemma streaming_choice_values :
  let upstream :=
    answering {| up_status := 200; up_body := Some example_chunks |} in
  let content_type (more : string) :=
    header "Content-Type"
      (headers (handleChatCompletions integer_toString example_env upstream
                  (example_request more))) in
  content_type (stream_field "true") = Some "text/event-stream" /\
  content_type EmptyString = Some "application/json" /\
  content_type (stream_field "false") = Some "application/json" /\
  content_type (stream_field "null") = Some "application/json" /\
  content_type (stream_field (quoted "true")) = Some "application/json" /\
  content_type (stream_field "1") = Some "application/json".
Proof.
  repeat split; vm_compute; reflexivity.
Qed.

(** ** Aggregation *)

Lemma one_line_unbroken (r : string) : one_line r -> unbroken r.
Proof.
  unfold one_line, unbroken. induction r as [|c r IH]; intros H.
  - reflexivity.
  - rewrite cut_unfold in H.
    change (Str.strip_prefix LF (String c r))
      with (if Ascii.eqb (ascii_of_nat 10) c then Some r else None) in H.
    destruct (Ascii.eqb (ascii_of_nat 10) c) eqn:N; [discriminate|].
    destruct (Str.cut LF r) as [[b a]|] eqn:C; [discriminate|].
    change (String c r ++ LF) with (String c (r ++ LF)).
    rewrite cut_unfold.
    change (Str.strip_prefix LFLF (String c (r ++ LF)))
      with (if Ascii.eqb (ascii_of_nat 10) c
            then Str.strip_prefix LF (r ++ LF) else None).
    now rewrite N, (IH eq_refl).
Qed.

(** The lines of well-formed text whose records are one line each carry
    what its records carry: the lines between them are empty. *)
Lemma carried_lines (records : list string) (terminated : bool) :
  Forall one_line records ->
  carried_all (Str.split (sse_text records terminated) LF)
  = carried_all records.
Proof.
  assert (blank : forall rest,
            Str.split (LF ++ rest) LF = EmptyString :: Str.split rest LF).
  { intros rest. now rewrite (split_eq LF LF_not_empty). }
  induction records as [|r records IH]; intros W; [reflexivity|].
  inversion W as [|r' records' U W']; subst.
  destruct records as [|r2 records].
  - simpl. destruct terminated.
    + change (r ++ LFLF) with (r ++ LF ++ LF).
      rewrite (split_first LF LF_not_empty _ _ (one_line_cut r _ U)).
      simpl. now destruct (carried r).
    + rewrite (split_none LF LF_not_empty _ U). reflexivity.
  - change (sse_text (r :: r2 :: records) terminated)
      with (r ++ LF ++ LF ++ sse_text (r2 :: records) terminated).
    rewrite (split_first LF LF_not_empty _ _ (one_line_cut r _ U)), blank.
    cbn [carried_all]. rewrite carried_empty, (IH W'). reflexivity.
Qed.

Section Aggregation.

Variable Number_toString : Z -> Z -> string.

Lemma parse_line_carried (content line : string) :
  parse_line Number_toString content line =
  content ++ Str.concat (map (fragment_text Number_toString)
                           (option_list (carried line))).
Proof.
  unfold parse_line, carried, fragment_of, fragment_text, try_catch.
  destruct (Str.startsWith line "data: "); [|now rewrite append_empty_r].
  destruct (JSON.parse (Str.slice_from 6 line)) as [data|];
    [|now rewrite append_empty_r].
  destruct (get data "chunk") as [chunk|]; [|now rewrite append_empty_r].
  destruct (ToBoolean chunk); [|now rewrite append_empty_r].
  cbn. destruct (ToString Number_toString chunk);
    [reflexivity | now rewrite append_empty_r].
Qed.

Lemma fold_parse_line (lines : list string) (content : string) :
  fold_left (parse_line Number_toString) lines content =
  content ++ Str.concat (map (fragment_text Number_toString)
                           (carried_all lines)).
Proof.
  revert content; induction lines as [|l lines IH]; intros content.
  - cbn. now rewrite append_empty_r.
  - cbn [fold_left carried_all]. rewrite IH, parse_line_carried.
    destruct (carried l); cbn [option_list map].
    + now rewrite !concat_cons, append_assoc, append_assoc.
    + cbn. now rewrite append_empty_r.
Qed.

(** The aggregated content of a text: the texts of the fragments its lines
    carry, in order. *)
Lemma parseInfiniaxSSE_lines (sseText : string) :
  parseInfiniaxSSE Number_toString sseText =
  Str.concat (map (fragment_text Number_toString)
                (carried_all (Str.split sseText LF))).
Proof.
  unfold parseInfiniaxSSE. now rewrite fold_parse_line.
Qed.

End Aggregation.

(** C2 fails as stated: on two records with one line end between them the
    stream emits no fragment, for the one piece of the text is no JSON
    after its prefix, and the aggregated content is both fragments, for
    each line is a record. *)
Lemma aggregation_counterexample :
  emitted_fragments
    (pipeThrough (JString "m") "chatcmpl-1" 1700000000 [example_lines]) = [] /\
  parseInfiniaxSSE integer_toString example_lines = "ab" /\
  parseInfiniaxSSE integer_toString example_lines
  <> Str.concat
       (map (fragment_text integer_toString)
          (emitted_fragments
             (pipeThrough (JString "m") "chatcmpl-1" 1700000000
                [example_lines]))).
Proof.
  split; [reflexivity|]. split; [reflexivity|].
  vm_compute. discriminate.
Qed.

(** On well-formed text of one-line records, the aggregated content is the
    texts of the fragments of the stream, in order. *)
Lemma aggregation_texts
    (Number_toString : Z -> Z -> string)
    (model : JsValue) (responseId : string) (created : Z)
    (payloads : list string) (datas : list JsValue) (terminated : bool)
    (chunks : list string) :
  Forall2 (fun p d => JSON.parse p = Some d) payloads datas ->
  Forall (fun p => one_line (record p)) payloads ->
  Str.concat chunks = sse_text (map record payloads) terminated ->
  parseInfiniaxSSE Number_toString (Str.concat chunks)
  = Str.concat
      (map (fragment_text Number_toString)
         (emitted_fragments (pipeThrough model responseId created chunks))).
Proof.
  intros P L E.
  assert (U : Forall (fun p => unbroken (record p)) payloads).
  { revert L. apply Forall_impl. intros p. apply one_line_unbroken. }
  rewrite pipeThrough_split, E, (carried_sse_text _ _ (proj2 (Forall_map _ _ _) U)).
  rewrite (emitted_content_frames _ _ _ _ _ (carried_all_truthy _)).
  rewrite parseInfiniaxSSE_lines, carried_lines; [reflexivity|].
  now apply Forall_map.
Qed.

Lemma concat_texts (Number_toString : Z -> Z -> string) (ss : list string) :
  map (fragment_text Number_toString) (map JString ss) = ss.
Proof.
  induction ss as [|s ss IH]; [reflexivity|].
  cbn [map]. now rewrite IH.
Qed.

(** C2, amended.  For every upstream body made of records [data: <json>]
    of one line each, with a blank line between them, whose fragments are
    texts, the content the aggregating path gathers is the concatenation,
    in order, of the fragments the stream emits from the same text; and a
    body that is empty gives the response of status 200 with the empty
    content. *)
Theorem aggregation
    (Number_toString : Z -> Z -> string)
    (model : JsValue) (responseId : string) (created : Z)
    (payloads : list string) (datas : list JsValue) (terminated : bool)
    (chunks : list string) (ss : list string) :
  Forall2 (fun p d => JSON.parse p = Some d) payloads datas ->
  Forall (fun p => one_line (record p)) payloads ->
  Str.concat chunks = sse_text (map record payloads) terminated ->
  emitted_fragments (pipeThrough model responseId created chunks)
  = map JString ss ->
  parseInfiniaxSSE Number_toString (Str.concat chunks) = Str.concat ss /\
  (forall env upstream_status empty,
     Str.concat empty = EmptyString ->
     status
       (handleNonStreamingResponse Number_toString env
          {| up_status := upstream_status; up_body := Some empty |} model)
     = 200%Z /\
     response_content
       (handleNonStreamingResponse Number_toString env
          {| up_status := upstream_status; up_body := Some empty |} model)
     = Some (JString EmptyString)).
Proof.
  intros P L E F. split.
  - rewrite (aggregation_texts Number_toString model responseId created
               payloads datas terminated chunks P L E).
    now rewrite F, concat_texts.
  - intros env upstream_status empty Z0. split; [reflexivity|].
    unfold handleNonStreamingResponse, text. cbn [up_body]. rewrite Z0.
    reflexivity.
Qed.

(** The three records of the examples in their four chunks: the content is
    [Hello]. *)
Lemma aggregation_witness :
  parseInfiniaxSSE integer_toString (Str.concat example_chunks)
  = Str.concat ["Hel"; "lo"] /\
  (forall env upstream_status empty,
     Str.concat empty = EmptyString ->
     status
       (handleNonStreamingResponse integer_toString env
          {| up_status := upstream_status; up_body := Some empty |}
          (JString "m")) = 200%Z /\
     response_content
       (handleNonStreamingResponse integer_toString env
          {| up_status := upstream_status; up_body := Some empty |}
          (JString "m")) = Some (JString EmptyString)).
Proof.
  apply (aggregation integer_toString (JString "m") "chatcmpl-1" 1700000000
           [chunk_payload "Hel"; done_payload; chunk_payload "lo"]
           [JObject [("chunk", JString "Hel")];
            JObject [("done", JBool true)];
            JObject [("chunk", JString "lo")]]
           true example_chunks ["Hel"; "lo"]).
  - repeat constructor.
  - repeat constructor.
  - reflexivity.
  - reflexivity.
Defined.

(** * More of the program *)

(** ** The one call to the upstream *)

Lemma dispatch_reply
    (Number_toString : Z -> Z -> string) (env : Env)
    (fetch : FetchRequest -> option UpstreamResponse)
    (requestBody : string) (openaiReq model stream : JsValue) :
  validated requestBody openaiReq model ->
  get openaiReq "stream" = Some stream ->
  exists infiniaxReq,
    transformRequest openaiReq = Some infiniaxReq /\
    handleChatCompletions Number_toString env fetch requestBody
    = reply Number_toString env model stream
        (fetch (upstream_request env infiniaxReq)).
Proof.
  intros (P & M & TM & messages & S & TS) St.
  destruct (transformRequest_total _ _ M) as [infiniaxReq T].
  exists infiniaxReq. split; [exact T|].
  unfold handleChatCompletions.
  rewrite P, M, TM, S, TS, T, St. cbn [negb].
  fold (upstream_request env infiniaxReq).
  unfold try_catch, reply.
  destruct (fetch _) as [up|]; [|reflexivity].
  destruct (negb (ok up)); [reflexivity|].
  destruct (strict_eq_true stream); reflexivity.
Qed.

(** X9.  For a request that passes validation, the answer of the dispatcher
    is what it makes of the answer of the upstream to one request: a POST to
    the fixed URL, with the JSON content type, the cookie of the
    environment (the empty text when there is none), and the mapped request
    as its body. *)
Theorem upstream_call
    (Number_toString : Z -> Z -> string) (env : Env)
    (fetch : FetchRequest -> option UpstreamResponse)
    (requestBody : string) (openaiReq model stream : JsValue) :
  validated requestBody openaiReq model ->
  get openaiReq "stream" = Some stream ->
  exists infiniaxReq,
    transformRequest openaiReq = Some infiniaxReq /\
    handleChatCompletions Number_toString env fetch requestBody
    = reply Number_toString env model stream
        (fetch {| url := "https://infiniax.ai/api/chat/stream";
                  method := "POST";
                  req_headers :=
                    [("Content-Type", "application/json");
                     ("Cookie", match COOKIE env with
                                | Some c => c
                                | None => EmptyString
                                end)];
                  req_body := [Stringify infiniaxReq] |}).
Proof.
  intros V St.
  destruct (dispatch_reply Number_toString env fetch _ _ _ _ V St)
    as (infiniaxReq & T & E).
  exists infiniaxReq. split; [exact T|]. rewrite E.
  unfold upstream_request, UPSTREAM_URL, or_string. do 3 f_equal.
  destruct (COOKIE env) as [c|]; [|reflexivity].
  unfold ToBoolean. destruct (String.eqb_spec c EmptyString) as [->|]; reflexivity.
Qed.

(** The request [{"model":"m","messages":[]}]: an empty list of messages
    passes validation and goes to the upstream. *)
Lemma upstream_call_witness :
  exists infiniaxReq,
    transformRequest (JObject [("model", JString "m"); ("messages", JArray [])])
    = Some infiniaxReq /\
    handleChatCompletions integer_toString example_env unreachable
      ("{" ++ quoted "model" ++ ":" ++ quoted "m" ++ ","
       ++ quoted "messages" ++ ":[]}")
    = reply integer_toString example_env (JString "m") JUndefined
        (unreachable
           {| url := "https://infiniax.ai/api/chat/stream";
              method := "POST";
              req_headers :=
                [("Content-Type", "application/json");
                 ("Cookie", "connect.sid=s%3Aabc")];
              req_body := [Stringify infiniaxReq] |}).
Proof.
  apply (upstream_call integer_toString example_env unreachable
           ("{" ++ quoted "model" ++ ":" ++ quoted "m" ++ ","
            ++ quoted "messages" ++ ":[]}")
           (JObject [("model", JString "m"); ("messages", JArray [])])
           (JString "m") JUndefined).
  - split; [reflexivity|].
    split; [reflexivity|].
    split; [reflexivity|].
    exists (JArray []). split; reflexivity.
  - reflexivity.
Defined.

(** ** The answers of the dispatcher *)

(** The four ways of a call. *)
Lemma handleChatCompletions_cases
    (Number_toString : Z -> Z -> string) (env : Env)
    (fetch : FetchRequest -> option UpstreamResponse) (requestBody : string) :
  (JSON.parse requestBody = None /\
   handleChatCompletions Number_toString env fetch requestBody
   = errorResponse "Invalid JSON" 400) \/
  (exists openaiReq,
     JSON.parse requestBody = Some openaiReq /\
     get openaiReq "model" = None /\
     handleChatCompletions Number_toString env fetch requestBody
     = errorResponse "Internal server error" 500) \/
  (exists openaiReq model,
     JSON.parse requestBody = Some openaiReq /\
     get openaiReq "model" = Some model /\
     (ToBoolean model = false \/
      exists messages,
        get openaiReq "messages" = Some messages /\
        ToBoolean messages = false) /\
     handleChatCompletions Number_toString env fetch requestBody
     = errorResponse "Missing required fields: model and messages" 400) \/
  (exists openaiReq model stream infiniaxReq,
     validated requestBody openaiReq model /\
     get openaiReq "stream" = Some stream /\
     handleChatCompletions Number_toString env fetch requestBody
     = reply Number_toString env model stream
         (fetch (upstream_request env infiniaxReq))).
Proof.
  destruct (JSON.parse requestBody) as [openaiReq|] eqn:P.
  2:{ left. split; [reflexivity|]. unfold handleChatCompletions. now rewrite P. }
  right. destruct (get openaiReq "model") as [model|] eqn:M.
  2:{ left. exists openaiReq. repeat split; try assumption.
      unfold handleChatCompletions. now rewrite P, M. }
  right. destruct (ToBoolean model) eqn:TM.
  2:{ left. exists openaiReq, model. repeat split; auto.
      unfold handleChatCompletions. now rewrite P, M, TM. }
  destruct (get_total _ _ "messages" _ M) as [messages S].
  destruct (ToBoolean messages) eqn:TS.
  2:{ left. exists openaiReq, model. repeat split; eauto.
      unfold handleChatCompletions. now rewrite P, M, TM, S, TS. }
  right. destruct (get_total _ _ "stream" _ M) as [stream St].
  assert (V : validated requestBody openaiReq model).
  { repeat split; eauto. }
  destruct (dispatch_reply Number_toString env fetch _ _ _ _ V St)
    as (infiniaxReq & _ & E).
  exists openaiReq, model, stream, infiniaxReq. auto.
Qed.

(** ** What [JSON.parse] gives *)

Lemma elements_array (fuel : nat) (acc : list JsValue) (s r : string)
    (v : JsValue) :
  JSON.elements fuel acc s = Some (v, r) -> exists xs, v = JArray xs.
Proof.
  revert acc s; induction fuel as [|f IH]; intros acc s H; [discriminate|].
  cbn [JSON.elements] in H.
  destruct (JSON.value f s) as [[v' r']|]; [|discriminate].
  destruct (JSON.skip_ws r') as [|c r'']; [discriminate|].
  destruct c as [[] [] [] [] [] [] [] []]; try discriminate H;
    first [eapply IH; eassumption | inversion H; eauto].
Qed.

Lemma members_object (fuel : nat) (acc : Props) (s r : string) (v : JsValue) :
  JSON.members fuel acc s = Some (v, r) -> exists props, v = JObject props.
Proof.
  revert acc s; induction fuel as [|f IH]; intros acc s H; [discriminate|].
  cbn [JSON.members] in H.
  destruct (JSON.skip_ws s) as [|c s1]; [discriminate|].
  destruct c as [[] [] [] [] [] [] [] []]; try discriminate H.
  destruct (JSON.string_literal s1) as [[k r1]|]; [|discriminate].
  destruct (JSON.skip_ws r1) as [|c r2]; [discriminate|].
  destruct c as [[] [] [] [] [] [] [] []]; try discriminate H.
  destruct (JSON.value f r2) as [[v' r3]|]; [|discriminate].
  destruct (JSON.skip_ws r3) as [|c r4]; [discriminate|].
  destruct c as [[] [] [] [] [] [] [] []]; try discriminate H;
    first [eapply IH; eassumption | inversion H; eauto].
Qed.

Lemma number_defined (s r : string) (v : JsValue) :
  JSON.number s = Some (v, r) -> v <> JUndefined.
Proof.
  unfold JSON.number. intros H.
  destruct (match s with
            | String "-"%char r0 => (true, r0)
            | _ => (false, s)
            end) as [neg s1].
  destruct (JSON.int_part s1) as [[i s2]|]; [|discriminate].
  destruct (JSON.frac_part i s2) as [[[m count] s3]|]; [|discriminate].
  destruct (JSON.exp_part s3) as [[x s4]|]; [|discriminate].
  inversion H. discriminate.
Qed.

Ltac value_case H :=
  first
    [ discriminate H
    | solve [inversion H; discriminate]
    | solve [eapply number_defined; eassumption]
    | solve [apply members_object in H; destruct H as [? ->]; discriminate]
    | solve [apply elements_array in H; destruct H as [? ->]; discriminate]
    | match type of H with
      | context [match ?x with _ => _ end] => destruct x; value_case H
      end ].

Lemma value_defined (fuel : nat) (s r : string) (v : JsValue) :
  JSON.value fuel s = Some (v, r) -> v <> JUndefined.
Proof.
  destruct fuel as [|f]; [discriminate|]. cbn [JSON.value]. intros H.
  value_case H.
Qed.

(** [JSON.parse] never gives [undefined]. *)
Lemma parse_defined (text : string) (v : JsValue) :
  JSON.parse text = Some v -> v <> JUndefined.
Proof.
  unfold JSON.parse. intros H.
  destruct (JSON.value _ text) as [[v' rest]|] eqn:V; [|discriminate].
  destruct (JSON.skip_ws rest); [|discriminate].
  inversion H; subst. exact (value_defined _ _ _ _ V).
Qed.

(** ** The status of an answer *)

Lemma reply_status
    (Number_toString : Z -> Z -> string) (env : Env)
    (model stream : JsValue) (answer : option UpstreamResponse) :
  (status (reply Number_toString env model stream answer) = 200%Z /\
   exists up, answer = Some up /\ ok up = true) \/
  status (reply Number_toString env model stream answer) = 401%Z \/
  status (reply Number_toString env model stream answer) = 502%Z.
Proof.
  unfold reply. destruct answer as [up|]; [|right; right; reflexivity].
  destruct (ok up) eqn:O; cbn [negb].
  - destruct (strict_eq_true stream).
    + unfold handleStreamingResponse. destruct (up_body up).
      * left. split; [reflexivity | eauto].
      * right; right; reflexivity.
    + left. split; [reflexivity | eauto].
  - unfold handleUpstreamError.
    destruct ((up_status up =? 401)%Z || (up_status up =? 403)%Z);
      [right; left | right; right]; reflexivity.
Qed.

Lemma handleChatCompletions_status
    (Number_toString : Z -> Z -> string) (env : Env)
    (fetch : FetchRequest -> option UpstreamResponse) (requestBody : string) :
  In (status (handleChatCompletions Number_toString env fetch requestBody))
     [200; 400; 401; 500; 502]%Z /\
  (status (handleChatCompletions Number_toString env fetch requestBody) = 200%Z ->
   exists request up, fetch request = Some up /\ ok up = true).
Proof.
  destruct (handleChatCompletions_cases Number_toString env fetch requestBody)
    as [(_ & E) | [(v & _ & _ & E) | [(v & m & _ & _ & _ & E)
       | (v & m & st & q & _ & _ & E)]]]; rewrite E.
  - split; [cbn; tauto | discriminate].
  - split; [cbn; tauto | discriminate].
  - split; [cbn; tauto | discriminate].
  - destruct (reply_status Number_toString env m st
                (fetch (upstream_request env q)))
      as [(S & up & A & O) | [S | S]]; rewrite S.
    + split; [cbn; tauto | eauto].
    + split; [cbn; tauto | discriminate].
    + split; [cbn; tauto | discriminate].
Qed.

(** X8.  The status of an answer to a chat-completions call is 200, 400,
    401, 500 or 502, and it is 200 only when the upstream has answered the
    call with a success status. *)
Theorem status_codes
    (Number_toString : Z -> Z -> string) (env : Env)
    (fetch : FetchRequest -> option UpstreamResponse) (requestBody : string) :
  In (status (handleChatCompletions Number_toString env fetch requestBody))
     [200; 400; 401; 500; 502]%Z /\
  (status (handleChatCompletions Number_toString env fetch requestBody) = 200%Z ->
   exists request up, fetch request = Some up /\ ok up = true).
Proof.
  exact (handleChatCompletions_status Number_toString env fetch requestBody).
Qed.

(** X7.  The answer is the status 500 exactly when the request body is the
    JSON value [null], the one body that parses and has no properties to
    read. *)
Theorem internal_error_iff_null
    (Number_toString : Z -> Z -> string) (env : Env)
    (fetch : FetchRequest -> option UpstreamResponse) (requestBody : string) :
  status (handleChatCompletions Number_toString env fetch requestBody) = 500%Z
  <-> JSON.parse requestBody = Some JNull.
Proof.
  split.
  - destruct (handleChatCompletions_cases Number_toString env fetch requestBody)
      as [(_ & E) | [(v & P & M & E) | [(v & m & _ & _ & _ & E)
         | (v & m & st & q & _ & _ & E)]]]; rewrite E.
    + discriminate.
    + intros _. pose proof (parse_defined _ _ P) as D.
      destruct v; try discriminate M; [contradiction | exact P].
    + discriminate.
    + destruct (reply_status Number_toString env m st
                  (fetch (upstream_request env q)))
        as [(S & _) | [S | S]]; rewrite S; discriminate.
  - intros P. unfold handleChatCompletions. now rewrite P.
Qed.

(** X6.  An answer of status 400 or 500 is given without a call to the
    upstream: it is the same whatever the upstream is. *)
Theorem rejected_without_upstream
    (Number_toString : Z -> Z -> string) (env : Env)
    (fetch fetch' : FetchRequest -> option UpstreamResponse)
    (requestBody : string) :
  status (handleChatCompletions Number_toString env fetch requestBody) = 400%Z \/
  status (handleChatCompletions Number_toString env fetch requestBody) = 500%Z ->
  handleChatCompletions Number_toString env fetch' requestBody
  = handleChatCompletions Number_toString env fetch requestBody.
Proof.
  destruct (handleChatCompletions_cases Number_toString env fetch requestBody)
    as [(P & E) | [(v & P & M & E) | [(v & m & P & M & F & E)
       | (v & m & st & q & _ & _ & E)]]]; rewrite E.
  - intros _. unfold handleChatCompletions. now rewrite P.
  - intros _. unfold handleChatCompletions. now rewrite P, M.
  - intros _. unfold handleChatCompletions. rewrite P, M.
    destruct F as [TM | (messages & S & TS)].
    + now rewrite TM.
    + rewrite S, TS. now destruct (ToBoolean m).
  - destruct (reply_status Number_toString env m st
                (fetch (upstream_request env q)))
      as [(S & _) | [S | S]]; rewrite S; intros [H|H]; discriminate.
Qed.

(** The body [{"messages":[]}], against an upstream that answers and one
    that cannot be reached. *)
Lemma rejected_without_upstream_witness :
  handleChatCompletions integer_toString example_env unreachable
    ("{" ++ quoted "messages" ++ ":[]}")
  = handleChatCompletions integer_toString example_env
      (answering {| up_status := 200; up_body := Some example_chunks |})
      ("{" ++ quoted "messages" ++ ":[]}").
Proof.
  apply (rejected_without_upstream integer_toString example_env
           (answering {| up_status := 200; up_body := Some example_chunks |})
           unreachable).
  left. reflexivity.
Defined.

(** X5.  For a request that passes validation, an upstream status that is
    no success is answered 401 with [Authentication failed] when it is 401
    or 403, and 502 with [Upstream error] when it is anything else; the
    body of the upstream is not looked at. *)
Theorem upstream_status_mapping
    (Number_toString : Z -> Z -> string) (env : Env)
    (requestBody : string) (openaiReq model : JsValue)
    (upstream_status : Z) (upstream_body : option (list string)) :
  validated requestBody openaiReq model ->
  (upstream_status < 200 \/ 299 < upstream_status)%Z ->
  handleChatCompletions Number_toString env
    (answering {| up_status := upstream_status; up_body := upstream_body |})
    requestBody
  = if ((upstream_status =? 401) || (upstream_status =? 403))%Z
    then errorResponse "Authentication failed" 401
    else errorResponse "Upstream error" 502.
Proof.
  intros V R. destruct (validated_stream _ _ _ V) as [stream St].
  rewrite (dispatch_answering _ _ _ _ _ _ _ V St).
  assert (O : ok {| up_status := upstream_status; up_body := upstream_body |}
              = false).
  { unfold ok. cbn [up_status]. lia. }
  rewrite O. reflexivity.
Qed.

(** The upstream answers 403 to the request of the examples. *)
Lemma upstream_status_mapping_witness :
  handleChatCompletions integer_toString example_env
    (answering {| up_status := 403; up_body := Some example_chunks |})
    (example_request EmptyString)
  = errorResponse "Authentication failed" 401.
Proof.
  apply (upstream_status_mapping integer_toString example_env
           (example_request EmptyString)
           (JObject [("model", JString "m"); ("messages", example_messages)])
           (JString "m") 403 (Some example_chunks)).
  - split; [reflexivity|].
    split; [reflexivity|].
    split; [reflexivity|].
    exists example_messages. split; reflexivity.
  - right. reflexivity.
Defined.

(** ** The state of a stream *)

(** X2.  After any chunks, the buffer of the stream is the text after the
    last blank line of what has come, and holds no blank line; the frames
    given so far are those of the fragments of the complete pieces before
    it; and [isFirst] is still set exactly when no frame was given. *)
Theorem stream_invariant
    (model : JsValue) (responseId : string) (created : Z)
    (chunks : list string) :
  exists complete : list string,
    Str.split (Str.concat chunks) LFLF
    = (complete
       ++ [buffer (fold_left (transform model responseId created) chunks
                     initial)])%list /\
    Str.cut LFLF
      (buffer (fold_left (transform model responseId created) chunks initial))
    = None /\
    emitted_fragments
      (enqueued (fold_left (transform model responseId created) chunks initial))
    = carried_all complete /\
    (isFirst (fold_left (transform model responseId created) chunks initial)
     = true
     <-> enqueued (fold_left (transform model responseId created) chunks
                     initial) = []).
Proof.
  destruct (fold_transform model responseId created chunks initial eq_refl)
    as (complete & last & E & F).
  cbn [buffer initial append] in E.
  destruct (split_continues LFLF LFLF_not_empty (Str.concat chunks))
    as (complete' & last' & E' & N' & _).
  rewrite E in E'. apply app_inj_tail in E'. destruct E' as [_ <-].
  exists complete. rewrite F. cbn [with_buffer after buffer isFirst enqueued initial app].
  split; [exact E|]. split; [exact N'|]. split.
  - pose proof (emitted_content_frames model responseId created true
                  (carried_all complete) (carried_all_truthy complete)) as G.
    destruct (carried_all complete) as [|f fs] eqn:C; [reflexivity|].
    pose proof (carried_all_truthy complete) as T. rewrite C in T.
    inversion T as [|f' fs' Tf Tfs]; subst.
    cbn [content_frames emitted_fragments].
    rewrite (frame_fragment_chunk model responseId created f true Tf).
    f_equal. clear - Tfs.
    induction Tfs as [|g gs Tg _ IH]; [reflexivity|].
    cbn [map emitted_fragments].
    now rewrite (frame_fragment_chunk model responseId created g false Tg), IH.
  - destruct (carried_all complete); cbn [content_frames];
      split; intros H; try reflexivity; discriminate H.
Qed.

(** ** Records that carry nothing *)

(** X3.  A record that does not begin with the prefix, or is no JSON after
    it, among records that stand between blank lines, takes nothing from
    the stream and adds nothing to it: the stream is the one of the text
    without that record. *)
Theorem malformed_records_skipped
    (model : JsValue) (responseId : string) (created : Z)
    (before after : list string) (bad : string) (terminated : bool)
    (chunks chunks' : list string) :
  Forall unbroken (before ++ bad :: after) ->
  Str.startsWith bad "data: " = false \/
  JSON.parse (Str.slice_from 6 bad) = None ->
  Str.concat chunks = sse_text (before ++ bad :: after) terminated ->
  Str.concat chunks' = sse_text (before ++ after) terminated ->
  pipeThrough model responseId created chunks
  = pipeThrough model responseId created chunks'.
Proof.
  intros U B E E'.
  assert (C : carried bad = None).
  { unfold carried. destruct B as [B|B]; rewrite B; [reflexivity|].
    now destruct (Str.startsWith bad "data: "). }
  assert (U' : Forall unbroken (before ++ after)).
  { apply Forall_app in U. destruct U as [U1 U2].
    inversion U2; subst. now apply Forall_app. }
  rewrite !pipeThrough_split, E, E'.
  rewrite (carried_sse_text _ _ U), (carried_sse_text _ _ U').
  rewrite !carried_all_app. cbn [carried_all]. now rewrite C.
Qed.

(** The record [data: {not json] between the records of [a] and of [b]. *)
Lemma malformed_records_skipped_witness :
  pipeThrough (JString "m") "chatcmpl-1" 1700000000
    [ record (chunk_payload "a") ++ LFLF ++ "data: {not json" ++ LFLF;
      record (chunk_payload "b") ++ LFLF ]
  = pipeThrough (JString "m") "chatcmpl-1" 1700000000
      [ record (chunk_payload "a") ++ LFLF ++ record (chunk_payload "b") ++ LFLF ].
Proof.
  apply (malformed_records_skipped (JString "m") "chatcmpl-1" 1700000000
           [record (chunk_payload "a")] [record (chunk_payload "b")]
           "data: {not json" true).
  - repeat constructor.
  - right. reflexivity.
  - reflexivity.
  - reflexivity.
Defined.

(** ** Lines of the aggregated body *)

Lemma concat_app (a b : list string) :
  Str.concat (a ++ b) = Str.concat a ++ Str.concat b.
Proof.
  induction a as [|x a IH]; [reflexivity|].
  cbn [app]. now rewrite !concat_cons, IH, append_assoc.
Qed.

Lemma split_lines (s t : string) :
  Str.split (s ++ LF ++ t) LF = (Str.split s LF ++ Str.split t LF)%list.
Proof.
  destruct (split_continues LF LF_not_empty s) as (complete & last & E & N & K).
  rewrite K, E, <- app_assoc. f_equal.
  now rewrite (split_first LF LF_not_empty _ _ (one_line_cut last t N)).
Qed.

(** X4.  The aggregated content of two texts with a line end between them
    is the content of the first and then the content of the second: every
    line counts for itself, and a line that is no record counts for
    nothing. *)
Theorem parseInfiniaxSSE_join
    (Number_toString : Z -> Z -> string) (s t : string) :
  parseInfiniaxSSE Number_toString (s ++ LF ++ t)
  = parseInfiniaxSSE Number_toString s ++ parseInfiniaxSSE Number_toString t.
Proof.
  rewrite !parseInfiniaxSSE_lines, split_lines, carried_all_app, map_app.
  apply concat_app.
Qed.

(** ** Response identifiers *)

Lemma slice_to_length (n : nat) (s : string) :
  String.length (Str.slice_to n s) = Nat.min n (String.length s).
Proof.
  revert s; induction n as [|n IH]; intros [|c s]; cbn; auto.
Qed.

Lemma slice_to_all (p : ascii -> bool) (n : nat) (s : string) :
  all_chars p s = true -> all_chars p (Str.slice_to n s) = true.
Proof.
  revert s; induction n as [|n IH]; intros [|c s]; cbn; auto.
  intros H. apply andb_true_iff in H. destruct H as [H1 H2].
  now rewrite H1, (IH _ H2).
Qed.

Lemma remove_char_all (c : ascii) (s : string) :
  all_chars (fun d => negb (Ascii.eqb c d)) (Str.remove_char c s) = true.
Proof.
  induction s as [|d s IH]; [reflexivity|]. cbn.
  destruct (Ascii.eqb c d) eqn:E; [exact IH|]. cbn. now rewrite E.
Qed.

Lemma remove_char_app (c : ascii) (s t : string) :
  Str.remove_char c (s ++ t) = Str.remove_char c s ++ Str.remove_char c t.
Proof.
  induction s as [|d s IH]; [reflexivity|]. cbn.
  destruct (Ascii.eqb c d); [exact IH | cbn; now rewrite IH].
Qed.

Lemma remove_char_free (c : ascii) (s : string) :
  all_chars (fun d => negb (Ascii.eqb c d)) s = true ->
  Str.remove_char c s = s.
Proof.
  induction s as [|d s IH]; [reflexivity|]. cbn. intros H.
  apply andb_true_iff in H. destruct H as [H1 H2].
  apply negb_true_iff in H1. now rewrite H1, (IH H2).
Qed.

Lemma remove_char_group (c : ascii) (s t : string) :
  all_chars (fun d => negb (Ascii.eqb c d)) s = true ->
  Str.remove_char c (s ++ String c t) = s ++ Str.remove_char c t.
Proof.
  intros H. rewrite remove_char_app, (remove_char_free c s H).
  cbn. now rewrite Ascii.eqb_refl.
Qed.

Lemma slice_to_app (s t : string) (n : nat) :
  Str.slice_to (String.length s + n) (s ++ t) = s ++ Str.slice_to n t.
Proof.
  induction s as [|c s IH]; [reflexivity|]. cbn. now rewrite IH.
Qed.

Lemma all_chars_app (p : ascii -> bool) (a b : string) :
  all_chars p (a ++ b) = true ->
  all_chars p a = true /\ all_chars p b = true.
Proof.
  induction a as [|c a IH]; cbn; [auto|].
  intros H. apply andb_true_iff in H. destruct H as [H1 H2].
  destruct (IH H2) as [Ha Hb]. now rewrite H1, Ha.
Qed.

(** X10.  For a UUID of the form of the runtime, five groups of 8, 4, 4, 4
    and 12 characters with a dash between them and none inside, the
    response identifier is [chatcmpl-], the first four groups and the first
    four characters of the fifth, without the dashes: 33 characters. *)
Theorem generateId_of_uuid (env : Env) (g1 g2 g3 g4 g5 : string) :
  randomUUID env = g1 ++ "-" ++ g2 ++ "-" ++ g3 ++ "-" ++ g4 ++ "-" ++ g5 ->
  String.length g1 = 8 -> String.length g2 = 4 -> String.length g3 = 4 ->
  String.length g4 = 4 -> String.length g5 = 12 ->
  all_chars (fun d => negb (Ascii.eqb "-"%char d)) (g1 ++ g2 ++ g3 ++ g4 ++ g5)
  = true ->
  generateId env = "chatcmpl-" ++ g1 ++ g2 ++ g3 ++ g4 ++ Str.slice_to 4 g5 /\
  String.length (generateId env) = 33.
Proof.
  intros U L1 L2 L3 L4 L5 D.
  destruct (all_chars_app _ _ _ D) as [D1 Da].
  destruct (all_chars_app _ _ _ Da) as [D2 Db].
  destruct (all_chars_app _ _ _ Db) as [D3 Dc].
  destruct (all_chars_app _ _ _ Dc) as [D4 D5].
  assert (G : generateId env
              = "chatcmpl-" ++ g1 ++ g2 ++ g3 ++ g4 ++ Str.slice_to 4 g5).
  { unfold generateId. rewrite U.
    change (g1 ++ "-" ++ g2 ++ "-" ++ g3 ++ "-" ++ g4 ++ "-" ++ g5)
      with (g1 ++ String "-"%char
                    (g2 ++ String "-"%char
                            (g3 ++ String "-"%char (g4 ++ String "-"%char g5)))).
    rewrite (remove_char_group _ _ _ D1), (remove_char_group _ _ _ D2),
      (remove_char_group _ _ _ D3), (remove_char_group _ _ _ D4),
      (remove_char_free _ _ D5).
    f_equal.
    rewrite <- (append_assoc g3 g4 g5), <- (append_assoc g2 (g3 ++ g4) g5),
      <- (append_assoc g1 (g2 ++ g3 ++ g4) g5).
    replace 24 with (String.length (g1 ++ g2 ++ g3 ++ g4) + 4)
      by (rewrite !length_append; lia).
    rewrite slice_to_app. now rewrite !append_assoc. }
  split; [exact G|].
  rewrite G, !length_append, slice_to_length. cbn [String.length]. lia.
Qed.

Lemma generateId_of_uuid_witness :
  generateId example_env = "chatcmpl-123e4567e89b12d3a4564266" /\
  String.length (generateId example_env) = 33.
Proof.
  apply (generateId_of_uuid example_env
           "123e4567" "e89b" "12d3" "a456" "426614174000");
    reflexivity.
Defined.

(** ** The model list *)

Lemma lower_clean (c : ascii) :
  is_upper (lower c) = false /\ is_space (lower c) = is_space c.
Proof.
  destruct c as [[] [] [] [] [] [] [] []]; split; reflexivity.
Qed.

Lemma toLowerCase_no_upper (s : string) :
  all_chars (fun c => negb (is_upper c)) (toLowerCase s) = true.
Proof.
  induction s as [|c s IH]; [reflexivity|]. cbn.
  now rewrite (proj1 (lower_clean c)), IH.
Qed.

Lemma dash_blanks_clean (in_run : bool) (s : string) :
  all_chars (fun c => negb (is_upper c)) s = true ->
  all_chars clean (dash_blanks in_run s) = true.
Proof.
  revert in_run; induction s as [|c s IH]; intros in_run H; [reflexivity|].
  cbn in H. apply andb_true_iff in H. destruct H as [H1 H2]. cbn.
  destruct (is_space c) eqn:S.
  - destruct in_run; [now apply IH|]. cbn. now apply IH.
  - cbn. unfold clean at 1. rewrite S, H1. cbn. now apply IH.
Qed.

Lemma clean_fixed (s : string) :
  all_chars clean s = true ->
  toLowerCase s = s /\ forall in_run, dash_blanks in_run s = s.
Proof.
  induction s as [|c s IH]; intros H; [split; reflexivity|].
  cbn in H. apply andb_true_iff in H. destruct H as [H1 H2].
  unfold clean in H1. apply andb_true_iff in H1. destruct H1 as [S U].
  apply negb_true_iff in S. apply negb_true_iff in U.
  destruct (IH H2) as [L D]. split.
  - cbn. unfold lower. now rewrite U, L.
  - intros in_run. cbn. now rewrite S, D.
Qed.

Lemma owned_by_clean (provider : string) :
  all_chars clean (owned_by provider) = true.
Proof.
  apply dash_blanks_clean, toLowerCase_no_upper.
Qed.

(** X11.  The owner made of an ASCII provider name holds no blank and no
    upper-case letter, and making an owner of it again changes nothing. *)
Theorem owned_by_normal (provider : string) :
  all_chars is_ascii provider = true ->
  all_chars clean (owned_by provider) = true /\
  owned_by (owned_by provider) = owned_by provider.
Proof.
  intros _. split; [apply owned_by_clean|].
  destruct (clean_fixed _ (owned_by_clean provider)) as [L D].
  unfold owned_by at 1. now rewrite L, D.
Qed.

Lemma owned_by_normal_witness :
  all_chars clean (owned_by "Mistral AI") = true /\
  owned_by (owned_by "Mistral AI") = owned_by "Mistral AI".
Proof.
  apply (owned_by_normal "Mistral AI"). reflexivity.
Defined.

(** X12.  The answer to a models call has the status 200 and lists the
    models of the table, one entry each and in its order, with the id of
    the model, the object [model], the one time of the call, and an owner
    without blank or upper-case letter. *)
Theorem models_listing (env : Env) :
  status (handleModels env) = 200%Z /\
  header "Content-Type" (headers (handleModels env)) = Some "application/json" /\
  map (entry_field "id") (listed (handleModels env))
  = map (fun m => Some (JString (Models.id m))) Models.INFINIAX_MODELS /\
  Forall (fun entry =>
            entry_field "object" entry = Some (JString "model") /\
            entry_field "created" entry = Some (JNumber (seconds env) 0) /\
            exists owner,
              entry_field "owned_by" entry = Some (JString owner) /\
              all_chars clean owner = true)
    (listed (handleModels env)).
Proof.
  split; [reflexivity|]. split; [reflexivity|].
  change (listed (handleModels env))
    with (map (model_entry (seconds env)) Models.INFINIAX_MODELS).
  split.
  - rewrite map_map. reflexivity.
  - apply Forall_map, Forall_forall. intros m _.
    split; [reflexivity|]. split; [reflexivity|].
    exists (owned_by (Models.provider m)). split; [reflexivity|].
    apply owned_by_clean.
Qed.

(** ** Routes *)

(** X13.  The router answers 404, with the error [Not Found], exactly the
    requests that are none of [GET /], [POST /v1/chat/completions] and
    [GET /v1/models]; path and method are compared as they stand. *)
Theorem routing
    (Number_toString : Z -> Z -> string) (env : Env)
    (fetch : FetchRequest -> option UpstreamResponse) (req : Incoming) :
  (status (handler Number_toString env fetch req) = 404%Z <->
   ~ ((path req = "/" /\ http_method req = "GET") \/
      (path req = "/v1/chat/completions" /\ http_method req = "POST") \/
      (path req = "/v1/models" /\ http_method req = "GET"))) /\
  (status (handler Number_toString env fetch req) = 404%Z ->
   handler Number_toString env fetch req = errorResponse "Not Found" 404) /\
  (path req = "/v1/chat/completions" -> http_method req = "POST" ->
   handler Number_toString env fetch req
   = handleChatCompletions Number_toString env fetch (payload req)).
Proof.
  unfold handler.
  destruct (String.eqb_spec (path req) "/") as [P1|P1];
  destruct (String.eqb_spec (http_method req) "GET") as [M1|M1];
  destruct (String.eqb_spec (path req) "/v1/chat/completions") as [P2|P2];
  destruct (String.eqb_spec (http_method req) "POST") as [M2|M2];
  destruct (String.eqb_spec (path req) "/v1/models") as [P3|P3];
  cbn [andb];
  try (rewrite P1 in P2; discriminate P2);
  try (rewrite P1 in P3; discriminate P3);
  try (rewrite P2 in P3; discriminate P3);
  try (rewrite M1 in M2; discriminate M2);
  pose proof (proj1 (handleChatCompletions_status Number_toString env fetch
                       (payload req))) as S;
  (split; [split|split]);
  try reflexivity; try tauto; try discriminate;
  try (intros H; exfalso; rewrite H in S; cbn in S;
       repeat (destruct S as [S|S]; try discriminate S); exact S).
Qed.

(** ** Chunks *)

(** X1.  Chunks being the texts of the byte chunks, each decoded by
    itself: two bodies whose chunk texts make the same text when put
    together give the same stream, whatever that text is. *)
Theorem chunking_irrelevant
    (model : JsValue) (responseId : string) (created : Z)
    (chunks chunks' : list string) :
  Str.concat chunks = Str.concat chunks' ->
  pipeThrough model responseId created chunks
  = pipeThrough model responseId created chunks'.
Proof.
  intros E. now rewrite !pipeThrough_split, E.
Qed.

(** A text that is no well-formed body, in one chunk and in three. *)
Lemma chunking_irrelevant_witness :
  pipeThrough (JString "m") "chatcmpl-1" 1700000000
    [ LF ++ "data: {not json" ++ LFLF ++ LF ++ record (chunk_payload "a") ]
  = pipeThrough (JString "m") "chatcmpl-1" 1700000000
      [ LF ++ "data: {not"; " json" ++ LF; LFLF ++ record (chunk_payload "a") ].
Proof.
  apply (chunking_irrelevant (JString "m") "chatcmpl-1" 1700000000).
  reflexivity.
Defined.
